(** * AstraGuard-AI: health registry and audit logger

    A shallow embedding of [core/component_health.py] and
    [core/audit_logger.py], with the properties of the specification
    stated and settled against it.

    Python objects that are shared by reference (the metadata dictionaries
    and the dictionaries handed back to callers) live in an explicit heap;
    methods run in a state-and-exception monad, so that [try]/[except],
    [KeyError] and in-place mutation are modelled as the code has them. *)

From Stdlib Require Import ZArith QArith Qround String Ascii.
From stdpp Require Import gmap strings list fin_maps pretty.

Open Scope string_scope.
Open Scope Z_scope.

(** ** Exceptions and the method monad *)

(** [KeyError] is what [d[k]] raises on a missing key; [Exception] stands
    for any other instance of Python's [Exception] class, carrying the text
    that [str(e)] gives. *)
Inductive exn :=
| KeyError (key : string)
| Exception (msg : string).

Inductive Res (A : Type) :=
| Ok (a : A)
| Raise (e : exn).
Arguments Ok {A} a.
Arguments Raise {A} e.

(** A computation over a state [S]: the state survives a raised exception,
    as it does in Python. *)
Definition M (S A : Type) : Type := S → Res A * S.

Definition ret {S A} (a : A) : M S A := λ s, (Ok a, s).

Definition bind {S A B} (m : M S A) (f : A → M S B) : M S B :=
  λ s, match m s with
       | (Ok a, s') => f a s'
       | (Raise e, s') => (Raise e, s')
       end.

Declare Scope m_scope.
Delimit Scope m_scope with M.
Notation "x ← y ; z" := (bind y (λ x, z))
  (at level 20, y at level 100, z at level 200) : m_scope.
Notation "y ;; z" := (bind y (λ _, z))
  (at level 100, z at level 200, right associativity) : m_scope.
Open Scope m_scope.

Definition raise {S A} (e : exn) : M S A := λ s, (Raise e, s).

(** [try: body except Exception as e: handler e] *)
Definition try_except {S A} (body : M S A) (handler : exn → M S A) : M S A :=
  λ s, match body s with
       | (Ok a, s') => (Ok a, s')
       | (Raise e, s') => handler e s'
       end.

(** A call into a collaborator whose outcome is given. *)
Definition call {S A} (r : Res A) : M S A := λ s, (r, s).

Definition gets {S A} (f : S → A) : M S A := λ s, (Ok (f s), s).
Definition modify {S} (f : S → S) : M S unit := λ s, (Ok tt, f s).

Fixpoint mapM {S A B} (f : A → M S B) (l : list A) : M S (list B) :=
  match l with
  | [] => ret []
  | x :: l' => y ← f x; ys ← mapM f l'; ret (y :: ys)
  end.

(** ** Python values *)

Definition loc := positive.

(** The values that occur in the dictionaries of this module.  A nested
    dictionary is held by reference, [VRef].  Floats are modelled as
    rationals. *)
Inductive value :=
| VNone
| VBool (b : bool)
| VInt (z : Z)
| VFloat (q : Q)
| VStr (s : string)
| VRef (l : loc).

Abbreviation dict := (gmap string value).
Abbreviation heap := (gmap loc dict).

(** [bool(d)] for a dictionary: non-empty. *)
Definition dict_truthy (d : dict) : bool := negb (Nat.eqb (size d) 0).

(** [str] of an optional string field ([None] stays [None]). *)
Definition opt_str (o : option string) : value :=
  match o with
  | Some s => VStr s
  | None => VNone
  end.

(** [round(x, ndigits)] on a float: to the nearest multiple of
    [10^-ndigits], ties to even. *)
Definition round_half_even (x : Q) : Z :=
  let f := Qfloor x in
  let r := (x - inject_Z f)%Q in
  match Qcompare r (1 # 2) with
  | Lt => f
  | Gt => f + 1
  | Eq => if Z.even f then f else f + 1
  end.

Definition py_round (x : Q) (ndigits : nat) : Q :=
  let scale := inject_Z (10 ^ Z.of_nat ndigits) in
  (inject_Z (round_half_even (x * scale)) / scale)%Q.

(** ** datetime *)

Record datetime := {
  year : nat; month : nat; day : nat;
  hour : nat; minute : nat; second : nat; microsecond : nat
}.

Fixpoint zfill_aux (n : nat) (s : string) : string :=
  match n with
  | O => s
  | S n' => zfill_aux n' (String "0" s)
  end.

(** [str(n).zfill(width)] *)
Definition zfill (width : nat) (n : nat) : string :=
  let s := pretty n in zfill_aux (width - String.length s) s.

(** [datetime.isoformat()] of a naive datetime. *)
Definition isoformat (t : datetime) : string :=
  zfill 4 (year t) +:+ "-" +:+ zfill 2 (month t) +:+ "-" +:+ zfill 2 (day t)
  +:+ "T" +:+ zfill 2 (hour t) +:+ ":" +:+ zfill 2 (minute t) +:+ ":"
  +:+ zfill 2 (second t)
  +:+ (if Nat.eqb (microsecond t) 0 then "" else "." +:+ zfill 6 (microsecond t)).

(** ** [repr] of a string

    Strings are sequences of bytes (UTF-8); bytes above 127 belong to
    non-ASCII characters, which [repr] leaves in place when printable.
    The model is exact on ASCII text and on printable characters.  A
    character above U+007F that is not printable (U+0085, say) Python
    writes as an escape, [\x85]; the model leaves it in place.  Neither
    form contains a line feed or a carriage return. *)

Definition hex_digit (n : N) : ascii :=
  match n with
  | 0 => "0" | 1 => "1" | 2 => "2" | 3 => "3" | 4 => "4" | 5 => "5" | 6 => "6"
  | 7 => "7" | 8 => "8" | 9 => "9" | 10 => "a" | 11 => "b" | 12 => "c"
  | 13 => "d" | 14 => "e" | _ => "f"
  end%N%char.

Fixpoint string_mem (c : ascii) (s : string) : bool :=
  match s with
  | EmptyString => false
  | String c' s' => if Ascii.eqb c c' then true else string_mem c s'
  end.

Definition repr_char (quote c : ascii) : string :=
  let n := N_of_ascii c in
  if Ascii.eqb c quote || Ascii.eqb c "\"%char then String "\"%char (String c "")
  else if (n =? 9)%N then "\t"
  else if (n =? 10)%N then "\n"
  else if (n =? 13)%N then "\r"
  else if (n <? 32)%N || (n =? 127)%N
       then String "\"%char (String "x" (String (hex_digit (n / 16)) (String (hex_digit (n mod 16)) "")))
  else String c "".

Fixpoint repr_body (quote : ascii) (s : string) : string :=
  match s with
  | EmptyString => ""
  | String c s' => repr_char quote c +:+ repr_body quote s'
  end.

Definition dquote : ascii := ascii_of_N 34.

Definition py_repr (s : string) : string :=
  let quote : ascii :=
    if string_mem "'" s && negb (string_mem dquote s) then dquote else "'"%char in
  String quote (repr_body quote s) +:+ String quote "".

(** [str(e)] *)
Definition exn_str (e : exn) : string :=
  match e with
  | KeyError k => py_repr k
  | Exception msg => msg
  end.

(** ** The data model of [component_health.py] *)

Inductive HealthStatus := HEALTHY | DEGRADED | FAILED | UNKNOWN.

#[export] Instance HealthStatus_eq_dec : EqDecision HealthStatus.
Proof. solve_decision. Defined.

(** [HealthStatus.value] *)
Definition HealthStatus_value (s : HealthStatus) : string :=
  match s with
  | HEALTHY => "healthy"
  | DEGRADED => "degraded"
  | FAILED => "failed"
  | UNKNOWN => "unknown"
  end.

(** The dataclass.  Every [ComponentHealth] this module constructs is given
    a dictionary for [metadata], held by reference. *)
Record ComponentHealth := {
  name : string;
  status : HealthStatus;
  last_updated : datetime;
  error_count : Z;
  warning_count : Z;
  last_error : option string;
  last_error_time : option datetime;
  fallback_active : bool;
  metadata : loc
}.

(** [ComponentHealth(name=..., status=..., last_updated=..., metadata=...)]
    with the dataclass defaults for the other fields. *)
Definition new_ComponentHealth (n : string) (st : HealthStatus) (t : datetime)
    (err : option string) (md : loc) : ComponentHealth :=
  {| name := n; status := st; last_updated := t; error_count := 0;
     warning_count := 0; last_error := err; last_error_time := None;
     fallback_active := false; metadata := md |}.

(** What a method of one [SystemHealthMonitor] instance sees: the instance
    attributes, the heap of dictionary objects, and the clock read by
    [datetime.now()] (the [ticks]-th reading is [clock ticks]). *)
Record St := {
  _initialized : bool;
  _components : gmap string ComponentHealth;
  _system_status : HealthStatus;
  store : heap;
  clock : nat → datetime;
  ticks : nat
}.

Definition set_components (f : gmap string ComponentHealth → gmap string ComponentHealth)
    (s : St) : St :=
  {| _initialized := _initialized s; _components := f (_components s);
     _system_status := _system_status s; store := store s;
     clock := clock s; ticks := ticks s |}.

Definition set_system_status (v : HealthStatus) (s : St) : St :=
  {| _initialized := _initialized s; _components := _components s;
     _system_status := v; store := store s;
     clock := clock s; ticks := ticks s |}.

Definition set_initialized (b : bool) (s : St) : St :=
  {| _initialized := b; _components := _components s;
     _system_status := _system_status s; store := store s;
     clock := clock s; ticks := ticks s |}.

Definition set_store (f : heap → heap) (s : St) : St :=
  {| _initialized := _initialized s; _components := _components s;
     _system_status := _system_status s; store := f (store s);
     clock := clock s; ticks := ticks s |}.

Definition tick (s : St) : St :=
  {| _initialized := _initialized s; _components := _components s;
     _system_status := _system_status s; store := store s;
     clock := clock s; ticks := S (ticks s) |}.

Abbreviation HM := (M St).

(** *** Primitive effects *)

(** [datetime.now()] *)
Definition now : HM datetime :=
  λ s, (Ok (clock s (ticks s)), tick s).

(** A new dictionary object. *)
Definition alloc (d : dict) : HM loc :=
  λ s, let l := fresh (dom (store s)) in
       (Ok l, set_store (insert l d) s).

(** The contents of the dictionary object at [l]. *)
Definition lookup_dict (h : heap) (l : loc) : dict := default ∅ (h !! l).

Definition deref (l : loc) : HM dict := gets (λ s, lookup_dict (store s) l).

(** [d[k] = v] on the dictionary object at [l]. *)
Definition dict_setitem (l : loc) (k : string) (v : value) : HM unit :=
  modify (set_store (λ h, <[l := <[k := v]> (lookup_dict h l)]> h)).

(** [d.update(other)]: the entries of [other] win. *)
Definition dict_update (l other : loc) : HM unit :=
  modify (set_store (λ h, <[l := lookup_dict h other ∪ lookup_dict h l]> h)).

(** [bool(metadata)] for an [Optional[Dict]] argument. *)
Definition arg_truthy (metadata : option loc) : HM bool :=
  match metadata with
  | None => ret false
  | Some l => d ← deref l; ret (dict_truthy d)
  end.

(** [metadata or {}] *)
Definition or_empty_dict (metadata : option loc) : HM loc :=
  b ← arg_truthy metadata;
  match metadata with
  | Some l => if b then ret l else alloc ∅
  | None => alloc ∅
  end.

(** [component in self._components] *)
Definition contains (component : string) : HM bool :=
  gets (λ s, bool_decide (is_Some (_components s !! component))).

(** [self._components[component]] *)
Definition getitem (component : string) : HM ComponentHealth :=
  λ s, match _components s !! component with
       | Some h => (Ok h, s)
       | None => (Raise (KeyError component), s)
       end.

(** [self._components[component] = h]; also the write-back of the
    attribute assignments made on the record fetched by [getitem]. *)
Definition setitem (component : string) (h : ComponentHealth) : HM unit :=
  modify (set_components (insert component h)).

(** ** The resource monitor collaborator

    [core.resource_monitor] is outside this module: the outcome of each of
    its calls is an input.  [check_resource_health()] gives a new
    dictionary, or raises; [get_current_metrics()] gives the metrics, or
    raises; [get_resource_monitor()] itself may raise. *)

Record ResourceMetrics := {
  cpu_percent : Q;
  memory_percent : Q;
  disk_usage_percent : Q;
  memory_available_mb : Q
}.

Record ResourceMonitor := {
  check_resource_health : Res dict;
  get_current_metrics : Res ResourceMetrics
}.

(** ** [ComponentHealth.to_dict] *)

(** The dictionary display of [to_dict], [md] being the object that
    [self.metadata or {}] evaluates to. *)
Definition record_dict (self : ComponentHealth) (md : loc) : dict :=
  {[ "name" := VStr (name self);
     "status" := VStr (HealthStatus_value (status self));
     "last_updated" := VStr (isoformat (last_updated self));
     "error_count" := VInt (error_count self);
     "warning_count" := VInt (warning_count self);
     "last_error" := opt_str (last_error self);
     "last_error_time" := opt_str (isoformat <$> last_error_time self);
     "fallback_active" := VBool (fallback_active self);
     "metadata" := VRef md ]}.

Definition to_dict (self : ComponentHealth) : HM loc :=
  d ← deref (metadata self);
  md ← (if dict_truthy d then ret (metadata self) else alloc ∅);
  alloc (record_dict self md).

(** ** [SystemHealthMonitor] methods *)

(** The body of [__init__] once the [_initialized] guard has passed. *)
Definition init_attributes (s : St) : St :=
  {| _initialized := true; _components := ∅; _system_status := HEALTHY;
     store := store s; clock := clock s; ticks := ticks s |}.

Definition __init__ : HM unit :=
  λ s, if _initialized s then (Ok tt, s) else (Ok tt, init_attributes s).

Definition register_component (n : string) (md : option loc) : HM unit :=
  t ← now;
  m ← or_empty_dict md;
  setitem n (new_ComponentHealth n HEALTHY t None m).

(** [sum(1 for c in xs if p c)] and [any(p s for s in xs)] *)
Definition count_if {A} (p : A → bool) (xs : list A) : Z :=
  foldr Z.add 0 ((λ _, 1) <$> filter (λ x, p x = true) xs).

Definition any {A} (p : A → bool) (xs : list A) : bool := existsb p xs.

Definition is_status (st : HealthStatus) (s : HealthStatus) : bool :=
  bool_decide (s = st).

(** [self._components.values()] *)
Definition values (m : gmap string ComponentHealth) : list ComponentHealth :=
  (map_to_list m).*2.

Definition _update_system_status : HM unit :=
  λ s,
    if Nat.eqb (size (_components s)) 0 then (Ok tt, set_system_status UNKNOWN s)
    else
      let statuses := status <$> values (_components s) in
      if any (is_status FAILED) statuses then (Ok tt, set_system_status DEGRADED s)
      else if any (is_status DEGRADED) statuses then (Ok tt, set_system_status DEGRADED s)
      else (Ok tt, set_system_status HEALTHY s).

(** The guarded [health.metadata.update(metadata)]. *)
Definition merge_metadata (health : ComponentHealth) (md : option loc) : HM unit :=
  b ← arg_truthy md;
  match md with
  | Some l => if b then dict_update (metadata health) l else ret tt
  | None => ret tt
  end.

Definition ensure_registered (component : string) (md : option loc) : HM unit :=
  present ← contains component;
  if present then ret tt else register_component component md.

Definition mark_healthy (component : string) (md : option loc) : HM unit :=
  ensure_registered component md;;
  health ← getitem component;
  t ← now;
  setitem component
    {| name := name health; status := HEALTHY; last_updated := t;
       error_count := error_count health; warning_count := warning_count health;
       last_error := last_error health; last_error_time := last_error_time health;
       fallback_active := false; metadata := metadata health |};;
  merge_metadata health md;;
  _update_system_status.

Definition mark_degraded (component : string) (error_msg : option string)
    (fallback : bool) (md : option loc) : HM unit :=
  ensure_registered component md;;
  health ← getitem component;
  t_err ← now;
  t ← now;
  setitem component
    {| name := name health; status := DEGRADED; last_updated := t;
       error_count := error_count health;
       warning_count := warning_count health + 1;
       last_error := error_msg; last_error_time := Some t_err;
       fallback_active := fallback; metadata := metadata health |};;
  merge_metadata health md;;
  _update_system_status.

Definition mark_failed (component : string) (error_msg : option string)
    (md : option loc) : HM unit :=
  ensure_registered component md;;
  health ← getitem component;
  t_err ← now;
  t ← now;
  setitem component
    {| name := name health; status := FAILED; last_updated := t;
       error_count := error_count health + 1;
       warning_count := warning_count health;
       last_error := error_msg; last_error_time := Some t_err;
       fallback_active := fallback_active health; metadata := metadata health |};;
  merge_metadata health md;;
  _update_system_status.

Definition get_component_health (component : string) : HM ComponentHealth :=
  present ← contains component;
  (if present then ret tt
   else
     t ← now;
     m ← alloc ∅;
     setitem component (new_ComponentHealth component UNKNOWN t None m));;
  getitem component.

(** The verdict-to-status mapping inside [get_all_health]. *)
Definition resource_health_status (resource_status : dict) : HealthStatus :=
  match resource_status !! "overall" with
  | Some (VStr v) =>
      if String.eqb v "critical" then FAILED
      else if String.eqb v "warning" then DEGRADED
      else HEALTHY
  | _ => HEALTHY
  end.

(** The [try]/[except] block of [get_all_health], which adds the
    resource monitor to [health_data] as one more component. *)
Definition add_resource_component (get_resource_monitor : Res ResourceMonitor)
    (health_data : loc) : HM unit :=
  try_except
    (resource_monitor ← call get_resource_monitor;
     rs ← call (check_resource_health resource_monitor);
     resource_status ← alloc rs;
     let resource_health := resource_health_status rs in
     metrics ← call (get_current_metrics resource_monitor);
     t ← now;
     md ← alloc ({[ "cpu_percent" := VFloat (py_round (cpu_percent metrics) 1);
                    "memory_percent" := VFloat (py_round (memory_percent metrics) 1);
                    "disk_percent" := VFloat (py_round (disk_usage_percent metrics) 1);
                    "memory_available_mb" := VFloat (py_round (memory_available_mb metrics) 0);
                    "resource_status" := VRef resource_status ]} : dict);
     d ← to_dict (new_ComponentHealth "system_resources" resource_health t None md);
     dict_setitem health_data "system_resources" (VRef d))
    (λ e,
     t ← now;
     md ← alloc ({[ "error" := VStr "Resource monitoring unavailable" ]} : dict);
     d ← to_dict (new_ComponentHealth "system_resources" UNKNOWN t (Some (exn_str e)) md);
     dict_setitem health_data "system_resources" (VRef d)).

Definition get_all_health (get_resource_monitor : Res ResourceMonitor) : HM loc :=
  comps ← gets _components;
  items ← mapM (λ '(n, health), d ← to_dict health; ret (n, VRef d)) (map_to_list comps);
  health_data ← alloc (list_to_map items);
  add_resource_component get_resource_monitor health_data;;
  ret health_data.

Definition get_system_status (get_resource_monitor : Res ResourceMonitor) : HM loc :=
  comps ← gets _components;
  let healthy_count := count_if (λ c, is_status HEALTHY (status c)) (values comps) in
  let degraded_count := count_if (λ c, is_status DEGRADED (status c)) (values comps) in
  let failed_count := count_if (λ c, is_status FAILED (status c)) (values comps) in
  overall ← gets _system_status;
  t ← now;
  counts ← alloc ({[ "healthy" := VInt healthy_count;
                     "degraded" := VInt degraded_count;
                     "failed" := VInt failed_count;
                     "total" := VInt (Z.of_nat (size comps)) ]} : dict);
  all ← get_all_health get_resource_monitor;
  alloc ({[ "overall_status" := VStr (HealthStatus_value overall);
            "timestamp" := VStr (isoformat t);
            "component_counts" := VRef counts;
            "components" := VRef all ]} : dict).

Definition is_system_healthy : HM bool :=
  gets (λ s, is_status HEALTHY (_system_status s)).

Definition is_system_degraded : HM bool :=
  gets (λ s, is_status DEGRADED (_system_status s)).

(** The part of [reset] that runs under the component lock. *)
Definition reset_locked : HM unit :=
  modify (set_components (λ _, ∅));;
  modify (set_system_status HEALTHY);;
  modify (set_initialized false).

(** ** The singleton: class attribute, module global and instances

    Instances are objects with identity.  [__new__] gives a new object
    only its [_initialized] attribute; [__init__] runs right after it in
    every construction, so the other two attributes of a not yet
    initialised object are never read. *)

Definition oid := positive.

Record Instance := {
  obj_initialized : bool;
  obj_components : gmap string ComponentHealth;
  obj_system_status : HealthStatus
}.

Record World := {
  objects : gmap oid Instance;
  cls_instance : option oid;      (* SystemHealthMonitor._instance *)
  _health_monitor : option oid;   (* the module-level global *)
  w_store : heap;
  w_clock : nat → datetime;
  w_ticks : nat
}.

Abbreviation WM := (M World).

Definition enter (o : Instance) (w : World) : St :=
  {| _initialized := obj_initialized o; _components := obj_components o;
     _system_status := obj_system_status o; store := w_store w;
     clock := w_clock w; ticks := w_ticks w |}.

Definition leave (self : oid) (s : St) (w : World) : World :=
  {| objects := <[self := {| obj_initialized := _initialized s;
                             obj_components := _components s;
                             obj_system_status := _system_status s |}]> (objects w);
     cls_instance := cls_instance w; _health_monitor := _health_monitor w;
     w_store := store s; w_clock := clock s; w_ticks := ticks s |}.

(** A method call [self.m(...)]. *)
Definition invoke {A} (self : oid) (m : HM A) : WM A :=
  λ w, match objects w !! self with
       | Some o => let '(r, s) := m (enter o w) in (r, leave self s w)
       | None => (Raise (Exception "not an object"), w)
       end.

Definition set_cls_instance (v : option oid) (w : World) : World :=
  {| objects := objects w; cls_instance := v; _health_monitor := _health_monitor w;
     w_store := w_store w; w_clock := w_clock w; w_ticks := w_ticks w |}.

Definition set_health_monitor (v : option oid) (w : World) : World :=
  {| objects := objects w; cls_instance := cls_instance w; _health_monitor := v;
     w_store := w_store w; w_clock := w_clock w; w_ticks := w_ticks w |}.

Definition new_object (o : oid) (w : World) : World :=
  {| objects := <[o := {| obj_initialized := false; obj_components := ∅;
                          obj_system_status := HEALTHY |}]> (objects w);
     cls_instance := cls_instance w; _health_monitor := _health_monitor w;
     w_store := w_store w; w_clock := w_clock w; w_ticks := w_ticks w |}.

Definition __new__ : WM oid :=
  inst ← gets cls_instance;
  match inst with
  | None =>
      o ← gets (λ w, fresh (dom (objects w)));
      modify (new_object o);;
      modify (set_cls_instance (Some o));;
      ret o
  | Some o => ret o
  end.

(** [SystemHealthMonitor()] *)
Definition SystemHealthMonitor : WM oid :=
  self ← __new__;
  invoke self __init__;;
  ret self.

Definition reset (self : oid) : WM unit :=
  invoke self reset_locked;;
  modify (set_cls_instance None);;
  modify (set_health_monitor None).

Definition get_health_monitor : WM oid :=
  g ← gets _health_monitor;
  match g with
  | None =>
      o ← SystemHealthMonitor;
      modify (set_health_monitor (Some o));;
      ret o
  | Some o => ret o
  end.

(** ** Sequences of public operations on one instance *)

Inductive op :=
| RegisterComponent (n : string) (md : option loc)
| MarkHealthy (n : string) (md : option loc)
| MarkDegraded (n : string) (error_msg : option string) (fallback : bool) (md : option loc)
| MarkFailed (n : string) (error_msg : option string) (md : option loc)
| GetComponentHealth (n : string)
| GetAllHealth (rm : Res ResourceMonitor)
| GetSystemStatus (rm : Res ResourceMonitor)
| IsSystemHealthy
| IsSystemDegraded
| Reset.

Definition exec (o : op) : HM unit :=
  match o with
  | RegisterComponent n md => register_component n md
  | MarkHealthy n md => mark_healthy n md
  | MarkDegraded n e f md => mark_degraded n e f md
  | MarkFailed n e md => mark_failed n e md
  | GetComponentHealth n => get_component_health n;; ret tt
  | GetAllHealth rm => get_all_health rm;; ret tt
  | GetSystemStatus rm => get_system_status rm;; ret tt
  | IsSystemHealthy => is_system_healthy;; ret tt
  | IsSystemDegraded => is_system_degraded;; ret tt
  | Reset => reset_locked
  end.

(** The state after a sequence of calls; a caller that catches an
    exception goes on with the state the call left. *)
Definition run (ops : list op) (s : St) : St :=
  foldl (λ s o, (exec o s).2) s ops.

(** The instance as [__init__] leaves it. *)
Definition fresh_monitor (h : heap) (c : nat → datetime) (t : nat) : St :=
  init_attributes {| _initialized := false; _components := ∅;
                     _system_status := HEALTHY; store := h; clock := c; ticks := t |}.

(** ** The audit logger of [audit_logger.py] *)

Inductive AuditEventType :=
| AUTH_SUCCESS | AUTH_FAILURE | ACCESS_DENIED | CONFIG_CHANGE | PHASE_CHANGE
| CHAOS_INJECTION | API_ACCESS | ADMIN_ACTION | SECURITY_VIOLATION.

(** [AuditEventType.value] *)
Definition AuditEventType_value (t : AuditEventType) : string :=
  match t with
  | AUTH_SUCCESS => "auth_success"
  | AUTH_FAILURE => "auth_failure"
  | ACCESS_DENIED => "access_denied"
  | CONFIG_CHANGE => "config_change"
  | PHASE_CHANGE => "phase_change"
  | CHAOS_INJECTION => "chaos_injection"
  | API_ACCESS => "api_access"
  | ADMIN_ACTION => "admin_action"
  | SECURITY_VIOLATION => "security_violation"
  end.

(** The levels of the [logging] module. *)
Definition ERROR : Z := 40.
Definition WARNING : Z := 30.
Definition INFO : Z := 20.

(** [logging.getLevelName(level)] *)
Definition getLevelName (level : Z) : string :=
  if level =? 50 then "CRITICAL"
  else if level =? 40 then "ERROR"
  else if level =? 30 then "WARNING"
  else if level =? 20 then "INFO"
  else if level =? 10 then "DEBUG"
  else if level =? 0 then "NOTSET"
  else "Level " +:+ pretty level.

(** [s.replace(old, new)] for a non-empty [old]: the occurrences are
    taken from left to right, without overlap.  [skip] is the number of
    characters of a matched occurrence still to pass over. *)
Fixpoint replace_from (old new : string) (skip : nat) (s : string) : string :=
  match s with
  | EmptyString => EmptyString
  | String c s' =>
      match skip with
      | S k => replace_from old new k s'
      | O =>
          if String.prefix old s
          then new +:+ replace_from old new (String.length old - 1) s'
          else String c (replace_from old new 0 s')
      end
  end.

Definition replace (old new s : string) : string := replace_from old new 0 s.

Definition newline : ascii := ascii_of_N 10.
Definition carriage_return : ascii := ascii_of_N 13.

(** A [details] dictionary: the keys in insertion order, each with the
    [repr] of its value, which is all that [str(details)] uses of it. *)
Abbreviation Details := (list (string * string)).

(** [d[k] = v] on an insertion-ordered dictionary. *)
Fixpoint details_set (k v : string) (d : Details) : Details :=
  match d with
  | [] => [(k, v)]
  | (k', v') :: d' =>
      if String.eqb k k' then (k, v) :: d' else (k', v') :: details_set k v d'
  end.

(** [{**a, **b}] *)
Definition details_merge (a b : Details) : Details :=
  foldl (λ acc kv, details_set kv.1 kv.2 acc) a b.

Fixpoint join (sep : string) (l : list string) : string :=
  match l with
  | [] => EmptyString
  | [x] => x
  | x :: l' => x +:+ sep +:+ join sep l'
  end.

(** [str(details)] *)
Definition str_details (d : Details) : string :=
  "{" +:+ join ", " ((λ kv, py_repr kv.1 +:+ ": " +:+ kv.2) <$> d) +:+ "}".

(** The [details_str] computed by [log_event]. *)
Definition details_str (details : option Details) : string :=
  match details with
  | Some (kv :: d) =>
      replace (String carriage_return EmptyString) " "
        (replace (String newline EmptyString) " " (str_details (kv :: d)))
  | _ => EmptyString
  end.

(** [time.strftime('%Y-%m-%d %H:%M:%S', ...)], the [asctime] of a record. *)
Definition formatTime (t : datetime) : string :=
  zfill 4 (year t) +:+ "-" +:+ zfill 2 (month t) +:+ "-" +:+ zfill 2 (day t)
  +:+ " " +:+ zfill 2 (hour t) +:+ ":" +:+ zfill 2 (minute t) +:+ ":"
  +:+ zfill 2 (second t).

(** The formatter of [__init__], applied to the attributes of a record. *)
Definition format_record (asctime levelname event_type user ip resource action details : string)
    : string :=
  asctime +:+ " - " +:+ levelname +:+ " - " +:+ event_type +:+ " - " +:+ user
  +:+ " - " +:+ ip +:+ " - " +:+ resource +:+ " - " +:+ action +:+ " - " +:+ details.

(** [log_event], at the time [t]: the text the handler writes, followed
    in the file by the handler's line terminator; nothing is written for a
    level below the logger's level, INFO. *)
Definition log_event (t : datetime) (event_type : AuditEventType)
    (user ip resource action : string) (details : option Details) (level : Z)
    : option string :=
  let details_str := details_str details in
  if INFO <=? level
  then Some (format_record (formatTime t) (getLevelName level)
               (AuditEventType_value event_type) user ip resource action details_str)
  else None.

(** [repr] of a [bool] and of an [int]. *)
Definition repr_bool (b : bool) : string := if b then "True" else "False".
Definition repr_int (z : Z) : string := pretty z.

Definition log_auth_success (t : datetime) (user ip method : string) : option string :=
  log_event t AUTH_SUCCESS user ip "authentication" "login"
    (Some [("method", py_repr method)]) INFO.

Definition log_auth_failure (t : datetime) (user ip reason : string) : option string :=
  log_event t AUTH_FAILURE user ip "authentication" "login_attempt"
    (Some [("reason", py_repr reason)]) WARNING.

Definition log_access_denied (t : datetime) (user ip resource required_permission : string)
    : option string :=
  log_event t ACCESS_DENIED user ip resource "access_denied"
    (Some [("required_permission", py_repr required_permission)]) WARNING.

(** [old_value] and [new_value] are given by their [str]. *)
Definition log_config_change (t : datetime) (user ip config_key old_value new_value : string)
    : option string :=
  log_event t CONFIG_CHANGE user ip "configuration" "change"
    (Some [("config_key", py_repr config_key); ("old_value", py_repr old_value);
           ("new_value", py_repr new_value)]) INFO.

Definition log_phase_change (t : datetime) (user ip old_phase new_phase : string)
    (force : bool) : option string :=
  log_event t PHASE_CHANGE user ip "mission_phase" "change"
    (Some [("old_phase", py_repr old_phase); ("new_phase", py_repr new_phase);
           ("force", repr_bool force)]) INFO.

Definition log_chaos_injection (t : datetime) (user ip fault_type : string) (duration : Z)
    : option string :=
  log_event t CHAOS_INJECTION user ip "chaos_engine" "inject_fault"
    (Some [("fault_type", py_repr fault_type); ("duration_seconds", repr_int duration)])
    WARNING.

Definition log_api_access (t : datetime) (user ip endpoint method : string) (status_code : Z)
    : option string :=
  log_event t API_ACCESS user ip endpoint method
    (Some [("status_code", repr_int status_code)]) INFO.

Definition log_admin_action (t : datetime) (user ip action : string)
    (details : option Details) : option string :=
  log_event t ADMIN_ACTION user ip "admin" action details INFO.

Definition log_security_violation (t : datetime) (user ip violation_type : string)
    (details : option Details) : option string :=
  log_event t SECURITY_VIOLATION user ip "security" "violation"
    (Some (details_merge [("violation_type", py_repr violation_type)]
             (default [] details))) ERROR.

(** ** [SystemHealthMonitor.get_resource_health] *)

(** The configured thresholds of the resource monitor. *)
Record ResourceThresholds := {
  cpu_warning : Q; cpu_critical : Q;
  memory_warning : Q; memory_critical : Q;
  disk_warning : Q; disk_critical : Q
}.

(** The resource monitor as [get_resource_health] uses it: besides the
    two calls, the metrics' own [to_dict()] and the [thresholds]
    attribute, each with its outcome. *)
Record ResourceMonitorDetail := {
  monitor : ResourceMonitor;
  metrics_to_dict : Res dict;
  thresholds : Res ResourceThresholds
}.

(** [resource_monitor.thresholds.<field>] *)
Definition threshold (m : ResourceMonitorDetail) (field : ResourceThresholds → Q)
    : HM value :=
  th ← call (thresholds m);
  ret (VFloat (field th)).

Definition get_resource_health (get_resource_monitor : Res ResourceMonitorDetail)
    : HM loc :=
  try_except
    (resource_monitor ← call get_resource_monitor;
     rs ← call (check_resource_health (monitor resource_monitor));
     resource_status ← alloc rs;
     current_metrics ← call (get_current_metrics (monitor resource_monitor));
     let status := default (VStr "unknown") (rs !! "overall") in
     md ← call (metrics_to_dict resource_monitor);
     metrics ← alloc md;
     cw ← threshold resource_monitor cpu_warning;
     cc ← threshold resource_monitor cpu_critical;
     mw ← threshold resource_monitor memory_warning;
     mc ← threshold resource_monitor memory_critical;
     dw ← threshold resource_monitor disk_warning;
     dc ← threshold resource_monitor disk_critical;
     th ← alloc ({[ "cpu_warning" := cw; "cpu_critical" := cc;
                    "memory_warning" := mw; "memory_critical" := mc;
                    "disk_warning" := dw; "disk_critical" := dc ]} : dict);
     t ← now;
     alloc ({[ "status" := status;
               "metrics" := VRef metrics;
               "thresholds" := VRef th;
               "component_status" := VRef resource_status;
               "timestamp" := VStr (isoformat t) ]} : dict))
    (λ e,
     t ← now;
     alloc ({[ "status" := VStr "error";
               "error" := VStr (exn_str e);
               "timestamp" := VStr (isoformat t) ]} : dict)).

(** ** The audit logger as an object *)

(** A [RotatingFileHandler], by its arguments. *)
Record Handler := {
  h_file : string;
  h_max_bytes : Z;
  h_backup_count : Z
}.

(** An [AuditLogger] instance; its [logger] attribute is the one logger
    that [logging.getLogger('audit')] gives to every instance. *)
Record AuditLogger := {
  log_file : string;
  max_bytes : Z;
  backup_count : Z
}.

(** The handlers of the logger named [audit], the module global
    [_audit_logger], and what has been handed to the handler of each file,
    in order.  Rotation of the files is the handler's own business. *)
Record LogWorld := {
  audit_handlers : list Handler;
  _audit_logger : option AuditLogger;
  written : gmap string (list string)
}.

Abbreviation LM := (M LogWorld).

Definition set_handlers (hs : list Handler) (w : LogWorld) : LogWorld :=
  {| audit_handlers := hs; _audit_logger := _audit_logger w; written := written w |}.

Definition set_audit_logger (a : option AuditLogger) (w : LogWorld) : LogWorld :=
  {| audit_handlers := audit_handlers w; _audit_logger := a; written := written w |}.

Definition emit (line : string) (h : Handler) (w : LogWorld) : LogWorld :=
  {| audit_handlers := audit_handlers w; _audit_logger := _audit_logger w;
     written := <[h_file h := (default [] (written w !! h_file h) ++ [line])%list]>
                  (written w) |}.

(** [AuditLogger.__init__].  [makedirs] is the outcome of
    [os.makedirs(...)], [open_file] that of opening the log file, which
    [RotatingFileHandler(...)] does when it is constructed.  The
    [setLevel(logging.INFO)] between the two is the threshold that
    [log_event] applies. *)
Definition AuditLogger_init (file : string) (mb bc : Z) (makedirs open_file : Res unit)
    : LM AuditLogger :=
  call makedirs;;
  modify (set_handlers []);;
  call open_file;;
  modify (λ w, set_handlers (audit_handlers w ++
            [{| h_file := file; h_max_bytes := mb; h_backup_count := bc |}])%list w);;
  ret {| log_file := file; max_bytes := mb; backup_count := bc |}.

(** [self.log_event(...)]: the record goes to every handler of the
    logger. *)
Definition AuditLogger_log_event (self : AuditLogger) (t : datetime)
    (event_type : AuditEventType) (user ip resource action : string)
    (details : option Details) (level : Z) : LM unit :=
  match log_event t event_type user ip resource action details level with
  | Some line => modify (λ w, foldl (λ w h, emit line h w) w (audit_handlers w))
  | None => ret tt
  end.

Definition get_audit_logger (makedirs open_file : Res unit) : LM AuditLogger :=
  g ← gets _audit_logger;
  match g with
  | None =>
      a ← AuditLogger_init "logs/audit.log" (10 * 1024 * 1024) 5 makedirs open_file;
      modify (set_audit_logger (Some a));;
      ret a
  | Some a => ret a
  end.

Definition init_audit_logging (file : string) (mb bc : Z) (makedirs open_file : Res unit)
    : LM AuditLogger :=
  a ← AuditLogger_init file mb bc makedirs open_file;
  modify (set_audit_logger (Some a));;
  ret a.

(** * The vocabulary of the properties

    States, records and predicates that the statements below are written
    with; none of them is part of the program. *)

(** A component that pulls the aggregate down. *)
Definition degrading (c : ComponentHealth) : Prop :=
  status c = FAILED ∨ status c = DEGRADED.

Definition some_degrading (m : gmap string ComponentHealth) : Prop :=
  ∃ n c, m !! n = Some c ∧ degrading c.

(** The three rules of the aggregation policy, read as the code applies
    them: rule 3 is "otherwise". *)
Definition aggregate_of (m : gmap string ComponentHealth) (st : HealthStatus) : Prop :=
  (m = ∅ ∧ st = UNKNOWN)
  ∨ (m ≠ ∅ ∧ some_degrading m ∧ st = DEGRADED)
  ∨ (m ≠ ∅ ∧ ¬ some_degrading m ∧ st = HEALTHY).


(** The contents of an optional metadata argument ([None] counts as empty). *)
Definition arg_dict (h : heap) (md : option loc) : dict :=
  match md with
  | Some l => lookup_dict h l
  | None => ∅
  end.

(** The location [metadata or {}] evaluates to, and the heap it leaves. *)
Definition or_empty_loc (md : option loc) (h : heap) : loc :=
  match md with
  | Some l => if dict_truthy (lookup_dict h l) then l else fresh (dom h)
  | None => fresh (dom h)
  end.

Definition or_empty_heap (md : option loc) (h : heap) : heap :=
  match md with
  | Some l => if dict_truthy (lookup_dict h l) then h else <[fresh (dom h) := ∅]> h
  | None => <[fresh (dom h) := ∅]> h
  end.

(** The state [register_component] leaves. *)
Definition registered (n : string) (md : option loc) (s : St) : St :=
  set_components
    (insert n (new_ComponentHealth n HEALTHY (clock s (ticks s)) None
                 (or_empty_loc md (store s))))
    (set_store (or_empty_heap md) (tick s)).

Definition ensured (n : string) (md : option loc) (s : St) : St :=
  match _components s !! n with
  | Some _ => s
  | None => registered n md s
  end.

(** The record a method works on once the component is known to exist. *)
Definition ensured_record (n : string) (md : option loc) (s : St) : ComponentHealth :=
  match _components s !! n with
  | Some c => c
  | None => new_ComponentHealth n HEALTHY (clock s (ticks s)) None
              (or_empty_loc md (store s))
  end.

(** The heap after the guarded [health.metadata.update(metadata)]. *)
Definition merged (health : ComponentHealth) (md : option loc) (h : heap) : heap :=
  if dict_truthy (arg_dict h md)
  then <[metadata health := arg_dict h md ∪ lookup_dict h (metadata health)]> h
  else h.

(** The state before the aggregate is recomputed, for a method that
    stores the record [h'] after reading the clock [k] times. *)
Definition marked (n : string) (md : option loc) (k : nat)
    (h' : ComponentHealth) (s : St) : St :=
  set_store (merged (ensured_record n md s) md)
    (set_components (insert n h') (Nat.iter k tick (ensured n md s))).

Definition healthy_record (h : ComponentHealth) (t : datetime) : ComponentHealth :=
  {| name := name h; status := HEALTHY; last_updated := t;
     error_count := error_count h; warning_count := warning_count h;
     last_error := last_error h; last_error_time := last_error_time h;
     fallback_active := false; metadata := metadata h |}.

Definition degraded_record (h : ComponentHealth) (e : option string) (f : bool)
    (t_err t : datetime) : ComponentHealth :=
  {| name := name h; status := DEGRADED; last_updated := t;
     error_count := error_count h; warning_count := warning_count h + 1;
     last_error := e; last_error_time := Some t_err;
     fallback_active := f; metadata := metadata h |}.

Definition failed_record (h : ComponentHealth) (e : option string)
    (t_err t : datetime) : ComponentHealth :=
  {| name := name h; status := FAILED; last_updated := t;
     error_count := error_count h + 1; warning_count := warning_count h;
     last_error := e; last_error_time := Some t_err;
     fallback_active := fallback_active h; metadata := metadata h |}.

(** The reading of the clock [i] calls after the component was ensured. *)
Definition reading (n : string) (md : option loc) (s : St) (i : nat) : datetime :=
  clock s (ticks (ensured n md s) + i)%nat.

(** The state [get_component_health] leaves when it has to create the
    record. *)
Definition auto_registered (n : string) (s : St) : St :=
  set_components
    (insert n (new_ComponentHealth n UNKNOWN (clock s (ticks s)) None
                 (fresh (dom (store s)))))
    (set_store (insert (fresh (dom (store s))) ∅) (tick s)).

(** [s'] differs from [s] by new dictionary objects (and clock readings)
    only. *)
Definition grows (s s' : St) : Prop :=
  _initialized s' = _initialized s
  ∧ _components s' = _components s
  ∧ _system_status s' = _system_status s
  ∧ clock s' = clock s
  ∧ store s ⊆ store s'.

(** One entry of the comprehension in [get_all_health]: [item] is the
    snapshot made of the stored pair [kv], between the states [s] and [s']. *)
Definition snapshot_of (s s' : St) (kv : string * ComponentHealth)
    (item : string * value) : Prop :=
  item.1 = kv.1
  ∧ ∃ l md,
      item.2 = VRef l
      ∧ store s !! l = None
      ∧ store s' !! l = Some (record_dict kv.2 md)
      ∧ (lookup_dict (store s) (metadata kv.2) ≠ ∅ → md = metadata kv.2)
      ∧ (is_Some (store s !! metadata kv.2) →
         lookup_dict (store s) (metadata kv.2) = ∅ →
         store s !! md = None ∧ store s' !! md = Some ∅).

(** The body of that comprehension. *)
Definition snapshot_item : string * ComponentHealth → HM (string * value) :=
  λ '(n, health), d ← to_dict health; ret (n, VRef d).

(** What the resource monitor's calls amount to inside the [try] block:
    the first exception raised, or the health dictionary and the metrics. *)
Definition collaborator_result (rm : Res ResourceMonitor) : Res (dict * ResourceMetrics) :=
  match rm with
  | Raise e => Raise e
  | Ok m =>
      match check_resource_health m with
      | Raise e => Raise e
      | Ok rs =>
          match get_current_metrics m with
          | Raise e => Raise e
          | Ok metrics => Ok (rs, metrics)
          end
      end
  end.

Definition resource_entry_status (rm : Res ResourceMonitor) : HealthStatus :=
  match collaborator_result rm with
  | Ok (rs, _) => resource_health_status rs
  | Raise _ => UNKNOWN
  end.

Definition resource_entry_error (rm : Res ResourceMonitor) : option string :=
  match collaborator_result rm with
  | Ok _ => None
  | Raise e => Some (exn_str e)
  end.

(** As [grows], but for the contents of the dictionary object [l], which
    may have been written. *)
Definition grows_but (l : loc) (s s' : St) : Prop :=
  _initialized s' = _initialized s
  ∧ _components s' = _components s
  ∧ _system_status s' = _system_status s
  ∧ clock s' = clock s
  ∧ ∀ l' d, l' ≠ l → store s !! l' = Some d → store s' !! l' = Some d.

(** The methods that end with [self._update_system_status()]. *)
Definition recomputes (o : op) : bool :=
  match o with
  | MarkHealthy _ _ | MarkDegraded _ _ _ _ | MarkFailed _ _ _ => true
  | _ => false
  end.

Definition noon : datetime :=
  {| year := 2026; month := 1; day := 1; hour := 12; minute := 0; second := 0;
     microsecond := 0 |}.

(** A registry just constructed, in a process with no other objects. *)
Definition s0 : St := fresh_monitor ∅ (λ _, noon) 0.

(** The dictionary under [component_counts]. *)
Definition counts_dict (m : gmap string ComponentHealth) : dict :=
  {[ "healthy" := VInt (count_if (λ c, is_status HEALTHY (status c)) (values m));
     "degraded" := VInt (count_if (λ c, is_status DEGRADED (status c)) (values m));
     "failed" := VInt (count_if (λ c, is_status FAILED (status c)) (values m));
     "total" := VInt (Z.of_nat (size m)) ]}.



(** The metadata contents of a recorded component, empty for a name that
    is not recorded. *)
Definition prior_metadata (s : St) (n : string) : dict :=
  match _components s !! n with
  | Some c => lookup_dict (store s) (metadata c)
  | None => ∅
  end.

(** The component map has one record per key by construction; what the
    code must keep is that the record under a key bears that name. *)
Definition names_ok (s : St) : Prop :=
  ∀ k c, _components s !! k = Some c → name c = k.

(** The [status] and [last_error] fields of the [system_resources] entry
    of the dictionary [get_all_health] returns; [None] if the call raises
    or the entry is not there. *)
Definition system_resources_entry (rm : Res ResourceMonitor) (s : St)
    : option (value * value) :=
  match get_all_health rm s with
  | (Ok l, s') =>
      match lookup_dict (store s') l !! "system_resources" with
      | Some (VRef d) =>
          match lookup_dict (store s') d !! "status",
                lookup_dict (store s') d !! "last_error" with
          | Some st, Some err => Some (st, err)
          | _, _ => None
          end
      | _ => None
      end
  | (Raise _, _) => None
  end.

(** The overall verdicts of the resource monitor and the component status
    the specification maps each one to. *)
Inductive verdict := ok | warning | critical.

Definition verdict_value (v : verdict) : string :=
  match v with
  | ok => "ok"
  | warning => "warning"
  | critical => "critical"
  end.

Definition verdict_status (v : verdict) : HealthStatus :=
  match v with
  | ok => HEALTHY
  | warning => DEGRADED
  | critical => FAILED
  end.

(** The number of recorded components of a given status. *)
Definition count_status (st : HealthStatus) (m : gmap string ComponentHealth) : Z :=
  Z.of_nat (size (filter (λ kv, status kv.2 = st) m)).

(** Every recorded component's metadata is an object of the heap. *)
Definition wf_store (s : St) : Prop :=
  ∀ n c, _components s !! n = Some c → is_Some (store s !! metadata c).

(** The registry's stored records, each with the contents of its
    metadata. *)
Definition stored_records (s : St) : gmap string (ComponentHealth * dict) :=
  (λ c, (c, lookup_dict (store s) (metadata c))) <$> _components s.




(** The metadata the registry holds for a component. *)
Definition stored_metadata (s : St) (n : string) : option dict :=
  (λ c, lookup_dict (store s) (metadata c)) <$> _components s !! n.

(** What [get_system_status] reports on an instance without components
    whose stored status is Healthy. *)
Definition reports_empty_healthy (self : oid) (rm : Res ResourceMonitor) (w : World) : Prop :=
  ∃ l w' counts,
    invoke self (get_system_status rm) w = (Ok l, w')
    ∧ lookup_dict (w_store w') l !! "overall_status" = Some (VStr "healthy")
    ∧ lookup_dict (w_store w') l !! "component_counts" = Some (VRef counts)
    ∧ lookup_dict (w_store w') counts !! "total" = Some (VInt 0).

(** A process in which the singleton was obtained and one component
    registered. *)
Definition w_boot : World :=
  {| objects := ∅; cls_instance := None; _health_monitor := None;
     w_store := ∅; w_clock := λ _, noon; w_ticks := 0 |}.

Definition w_used : World :=
  (invoke 1%positive (register_component "db" None) (get_health_monitor w_boot).2).2.

(** The number of line breaks in a text. *)
Fixpoint count_char (c : ascii) (s : string) : nat :=
  match s with
  | EmptyString => 0
  | String c' s' => (if Ascii.eqb c c' then 1 else 0) + count_char c s'
  end.

Definition status_ok (s : St) : Prop :=
  _system_status s = HEALTHY ∨ _system_status s = DEGRADED.

(** The name a call records, if any. *)
Definition touched (o : op) : gset string :=
  match o with
  | RegisterComponent n _ | MarkHealthy n _ | MarkDegraded n _ _ _
  | MarkFailed n _ _ | GetComponentHealth n => {[ n ]}
  | _ => ∅
  end.

(** The dictionary object a call updates in place, with the entries it
    lays over it: the metadata of the record a marking method works on,
    when the metadata it is given is not empty. *)
Definition updates (o : op) (s : St) : option (loc * dict) :=
  match o with
  | MarkHealthy n md | MarkDegraded n _ _ md | MarkFailed n _ md =>
      if dict_truthy (arg_dict (store s) md)
      then Some (metadata (ensured_record n md s), arg_dict (store s) md)
      else None
  | _ => None
  end.

(** What a process does with the registry: obtain the singleton, call
    the constructor, or call a method on an instance it holds. *)
Inductive wop :=
| WGetHealthMonitor
| WConstruct
| WCall (o : oid) (c : op).

Definition wexec (a : wop) : WM unit :=
  match a with
  | WGetHealthMonitor => get_health_monitor;; ret tt
  | WConstruct => SystemHealthMonitor;; ret tt
  | WCall o Reset => reset o
  | WCall o c => invoke o (exec c)
  end.

Definition wrun (acts : list wop) (w : World) : World :=
  foldl (λ w a, (wexec a w).2) w acts.

(** A process in which nothing has touched the registry yet. *)
Definition new_process (h : heap) (c : nat → datetime) (t : nat) : World :=
  {| objects := ∅; cls_instance := None; _health_monitor := None;
     w_store := h; w_clock := c; w_ticks := t |}.

(** The module global, when set, is the class's instance, and the
    class's instance is an initialised object. *)
Definition singleton_ok (w : World) : Prop :=
  (∀ o, _health_monitor w = Some o → cls_instance w = Some o)
  ∧ (∀ o, cls_instance w = Some o →
          ∃ i, objects w !! o = Some i ∧ obj_initialized i = true).

(** The handle [1] is reset, a second singleton [2] is obtained and used,
    and the stale handle [1] is reset again. *)
Definition w_stale : World :=
  wrun [WGetHealthMonitor; WCall 1%positive Reset; WGetHealthMonitor;
        WCall 2%positive (MarkFailed "db" None None)] w_boot.

(** What the resource monitor's calls amount to inside that [try]
    block: the first exception raised, or the health dictionary. *)
Definition detail_result (rm : Res ResourceMonitorDetail) : Res dict :=
  match rm with
  | Raise e => Raise e
  | Ok m =>
      match check_resource_health (monitor m) with
      | Raise e => Raise e
      | Ok rs =>
          match get_current_metrics (monitor m) with
          | Raise e => Raise e
          | Ok _ =>
              match metrics_to_dict m with
              | Raise e => Raise e
              | Ok _ =>
                  match thresholds m with
                  | Raise e => Raise e
                  | Ok _ => Ok rs
                  end
              end
          end
      end
  end.

(** A control character: below the space, or DEL. *)
Definition ctl (c : ascii) : bool :=
  (N_of_ascii c <? 32)%N || (N_of_ascii c =? 127)%N.

(** A text without line break. *)
Definition single_line (s : string) : Prop :=
  string_mem newline s = false ∧ string_mem carriage_return s = false.


(** * Properties *)

(** ** Reasoning about the monad *)

Lemma bind_ok {S A B} (m : M S A) (f : A → M S B) s a s1 :
  m s = (Ok a, s1) → bind m f s = f a s1.
Proof. intros H. unfold bind. by rewrite H. Qed.

Lemma bind_raise {S A B} (m : M S A) (f : A → M S B) s e s1 :
  m s = (Raise e, s1) → bind m f s = (Raise e, s1).
Proof. intros H. unfold bind. by rewrite H. Qed.

Lemma lookup_dict_insert_eq (h : heap) l d : lookup_dict (<[l := d]> h) l = d.
Proof. unfold lookup_dict. by rewrite lookup_insert_eq. Qed.

Lemma lookup_dict_insert_ne (h : heap) l l' d :
  l ≠ l' → lookup_dict (<[l := d]> h) l' = lookup_dict h l'.
Proof. intros. unfold lookup_dict. by rewrite lookup_insert_ne. Qed.

Lemma lookup_dict_fresh (h : heap) : lookup_dict h (fresh (dom h)) = ∅.
Proof.
  unfold lookup_dict.
  by rewrite (not_elem_of_dom_1 h (fresh (dom h)) (is_fresh (dom h))).
Qed.

(** Putting an empty dictionary at an unused location changes no reading. *)
Lemma lookup_dict_alloc_empty (h : heap) l :
  lookup_dict (<[fresh (dom h) := ∅]> h) l = lookup_dict h l.
Proof.
  destruct (decide (fresh (dom h) = l)) as [<-|Hne].
  - by rewrite lookup_dict_insert_eq, lookup_dict_fresh.
  - by rewrite lookup_dict_insert_ne.
Qed.

Lemma dict_truthy_false (d : dict) : dict_truthy d = false ↔ d = ∅.
Proof.
  unfold dict_truthy. rewrite negb_false_iff, Nat.eqb_eq.
  apply map_size_empty_iff.
Qed.

(** ** The aggregation policy *)

Lemma any_is_status st (m : gmap string ComponentHealth) :
  any (is_status st) (status <$> values m) = true
  ↔ ∃ n c, m !! n = Some c ∧ status c = st.
Proof.
  unfold any, values. rewrite existsb_exists. split.
  - intros (x & Hin & Hx). apply list_elem_of_In in Hin.
    apply list_elem_of_fmap in Hin as (c & -> & Hc).
    apply list_elem_of_fmap in Hc as ([n c'] & -> & Hc).
    apply elem_of_map_to_list in Hc. exists n, c'. split; [done|].
    unfold is_status in Hx. by apply bool_decide_eq_true in Hx.
  - intros (n & c & Hc & Hst). exists (status c). split.
    + apply list_elem_of_In, list_elem_of_fmap. exists c. split; [done|].
      apply list_elem_of_fmap. exists (n, c). split; [done|].
      by apply elem_of_map_to_list.
    + unfold is_status. by apply bool_decide_eq_true.
Qed.

Lemma update_system_status_run s :
  ∃ st, _update_system_status s = (Ok tt, set_system_status st s)
        ∧ aggregate_of (_components s) st.
Proof.
  unfold _update_system_status.
  destruct (Nat.eqb (size (_components s)) 0) eqn:Hsz.
  { exists UNKNOWN. split; [done|]. left. split; [|done].
    apply map_size_empty_iff. by apply Nat.eqb_eq. }
  assert (_components s ≠ ∅) as Hne.
  { intros He. apply map_size_empty_iff in He. apply Nat.eqb_neq in Hsz. lia. }
  destruct (any (is_status FAILED) _) eqn:Hf.
  { exists DEGRADED. split; [done|]. right; left. split; [done|]. split; [|done].
    apply any_is_status in Hf as (n & c & ? & ?). exists n, c. split; [done|]. by left. }
  destruct (any (is_status DEGRADED) _) eqn:Hd.
  { exists DEGRADED. split; [done|]. right; left. split; [done|]. split; [|done].
    apply any_is_status in Hd as (n & c & ? & ?). exists n, c. split; [done|]. by right. }
  exists HEALTHY. split; [done|]. right; right. split; [done|]. split; [|done].
  intros (n & c & Hc & [Hst|Hst]).
  - assert (any (is_status FAILED) (status <$> values (_components s)) = true) as Ht
      by (apply any_is_status; eauto).
    congruence.
  - assert (any (is_status DEGRADED) (status <$> values (_components s)) = true) as Ht
      by (apply any_is_status; eauto).
    congruence.
Qed.

(** ** What the mutating methods do, step by step *)

Lemma arg_truthy_run md s :
  arg_truthy md s = (Ok (dict_truthy (arg_dict (store s) md)), s).
Proof. destruct md; reflexivity. Qed.

Lemma or_empty_dict_run md s :
  or_empty_dict md s = (Ok (or_empty_loc md (store s)), set_store (or_empty_heap md) s).
Proof.
  unfold or_empty_dict. rewrite (bind_ok _ _ _ _ _ (arg_truthy_run md s)).
  unfold or_empty_loc, or_empty_heap, alloc, ret, set_store.
  destruct md as [l|]; simpl; [|done].
  destruct (dict_truthy (lookup_dict (store s) l)); [|done].
  by destruct s.
Qed.

Lemma or_empty_lookup md h l :
  lookup_dict (or_empty_heap md h) l = lookup_dict h l.
Proof.
  unfold or_empty_heap. destruct md as [l'|].
  - destruct (dict_truthy _); [done|]. apply lookup_dict_alloc_empty.
  - apply lookup_dict_alloc_empty.
Qed.

Lemma or_empty_contents md h :
  lookup_dict (or_empty_heap md h) (or_empty_loc md h) = arg_dict h md.
Proof.
  unfold or_empty_heap, or_empty_loc, arg_dict. destruct md as [l|].
  - destruct (dict_truthy (lookup_dict h l)) eqn:Ht; [done|].
    rewrite lookup_dict_insert_eq. symmetry. by apply dict_truthy_false.
  - by rewrite lookup_dict_insert_eq.
Qed.

Lemma register_component_run n md s :
  register_component n md s = (Ok tt, registered n md s).
Proof.
  unfold register_component, now, bind at 1.
  by rewrite (bind_ok _ _ _ _ _ (or_empty_dict_run md (tick s))).
Qed.

Lemma ensure_registered_run n md s :
  ensure_registered n md s = (Ok tt, ensured n md s).
Proof.
  unfold ensure_registered, ensured, contains, gets, bind at 1.
  destruct (_components s !! n) as [c|] eqn:Hc.
  - rewrite bool_decide_eq_true_2; [done|eauto].
  - rewrite bool_decide_eq_false_2; [|by intros [? ?]].
    apply register_component_run.
Qed.

Lemma ensured_lookup n md s :
  _components (ensured n md s) !! n = Some (ensured_record n md s).
Proof.
  unfold ensured, ensured_record.
  destruct (_components s !! n) as [c|] eqn:Hc; [done|].
  simpl. by rewrite lookup_insert_eq.
Qed.

Lemma getitem_ensured n md s :
  getitem n (ensured n md s) = (Ok (ensured_record n md s), ensured n md s).
Proof. unfold getitem. by rewrite ensured_lookup. Qed.

Lemma merge_metadata_run health md s :
  merge_metadata health md s = (Ok tt, set_store (merged health md) s).
Proof.
  unfold merge_metadata. rewrite (bind_ok _ _ _ _ _ (arg_truthy_run md s)).
  unfold merged, dict_update, modify, ret, set_store.
  destruct md as [l|]; simpl.
  - destruct (dict_truthy (lookup_dict (store s) l)); [done|]. by destruct s.
  - by destruct s.
Qed.

Lemma ensured_clock n md s : clock (ensured n md s) = clock s.
Proof. unfold ensured. by destruct (_components s !! n). Qed.

Ltac run_prefix n md s :=
  rewrite (bind_ok _ _ _ _ _ (ensure_registered_run n md s));
  rewrite (bind_ok _ _ _ _ _ (getitem_ensured n md s));
  unfold now, bind at 1.

Lemma mark_healthy_run n md s :
  ∃ st,
    let h' := healthy_record (ensured_record n md s) (reading n md s 0) in
    mark_healthy n md s = (Ok tt, set_system_status st (marked n md 1 h' s))
    ∧ aggregate_of (_components (marked n md 1 h' s)) st.
Proof.
  set (h' := healthy_record _ _).
  destruct (update_system_status_run (marked n md 1 h' s)) as (st & Hrun & Hag).
  exists st. split; [|done].
  unfold mark_healthy. run_prefix n md s.
  unfold setitem, modify, bind at 1.
  erewrite bind_ok by apply merge_metadata_run.
  rewrite <- Hrun. f_equal.
  unfold marked, h', reading. simpl. by rewrite ensured_clock, Nat.add_0_r.
Qed.

Lemma mark_degraded_run n e f md s :
  ∃ st,
    let h' := degraded_record (ensured_record n md s) e f
                (reading n md s 0) (reading n md s 1) in
    mark_degraded n e f md s = (Ok tt, set_system_status st (marked n md 2 h' s))
    ∧ aggregate_of (_components (marked n md 2 h' s)) st.
Proof.
  set (h' := degraded_record _ _ _ _ _).
  destruct (update_system_status_run (marked n md 2 h' s)) as (st & Hrun & Hag).
  exists st. split; [|done].
  unfold mark_degraded. run_prefix n md s.
  unfold bind at 1. unfold setitem, modify, bind at 1.
  erewrite bind_ok by apply merge_metadata_run.
  rewrite <- Hrun. f_equal.
  unfold marked, h', reading. simpl.
  by rewrite ensured_clock, Nat.add_0_r, Nat.add_1_r.
Qed.

Lemma mark_failed_run n e md s :
  ∃ st,
    let h' := failed_record (ensured_record n md s) e
                (reading n md s 0) (reading n md s 1) in
    mark_failed n e md s = (Ok tt, set_system_status st (marked n md 2 h' s))
    ∧ aggregate_of (_components (marked n md 2 h' s)) st.
Proof.
  set (h' := failed_record _ _ _ _).
  destruct (update_system_status_run (marked n md 2 h' s)) as (st & Hrun & Hag).
  exists st. split; [|done].
  unfold mark_failed. run_prefix n md s.
  unfold bind at 1. unfold setitem, modify, bind at 1.
  erewrite bind_ok by apply merge_metadata_run.
  rewrite <- Hrun. f_equal.
  unfold marked, h', reading. simpl.
  by rewrite ensured_clock, Nat.add_0_r, Nat.add_1_r.
Qed.

Lemma get_component_health_present n c s :
  _components s !! n = Some c → get_component_health n s = (Ok c, s).
Proof.
  intros Hc. unfold get_component_health, contains, gets, bind at 1.
  rewrite bool_decide_eq_true_2 by eauto.
  unfold ret, bind, getitem. by rewrite Hc.
Qed.

Lemma get_component_health_absent n s :
  _components s !! n = None →
  get_component_health n s
  = (Ok (new_ComponentHealth n UNKNOWN (clock s (ticks s)) None (fresh (dom (store s)))),
     auto_registered n s).
Proof.
  intros Hc. unfold get_component_health, contains, gets, bind at 1.
  rewrite bool_decide_eq_false_2 by (rewrite Hc; by intros [? ?]).
  unfold now, alloc, setitem, modify, bind, getitem, auto_registered. simpl.
  by rewrite lookup_insert_eq.
Qed.

(** ** Queries only allocate *)

Lemma grows_refl s : grows s s.
Proof. by repeat split. Qed.

Lemma grows_trans s1 s2 s3 : grows s1 s2 → grows s2 s3 → grows s1 s3.
Proof.
  intros (?&?&?&?&?) (?&?&?&?&?). repeat split; try congruence.
  by etrans.
Qed.

Lemma grows_tick s : grows s (tick s).
Proof. by repeat split. Qed.

Lemma grows_alloc s d : grows s (set_store (insert (fresh (dom (store s))) d) s).
Proof.
  repeat split; simpl. apply insert_subseteq.
  apply not_elem_of_dom_1, is_fresh.
Qed.

Lemma grows_None s s' l : grows s s' → store s' !! l = None → store s !! l = None.
Proof.
  intros (_&_&_&_&Hsub) Hl.
  destruct (store s !! l) as [d|] eqn:Hd; [|done].
  by rewrite (lookup_weaken _ _ _ _ Hd Hsub) in Hl.
Qed.

Lemma grows_Some s s' l d : grows s s' → store s !! l = Some d → store s' !! l = Some d.
Proof. intros (_&_&_&_&Hsub) Hl. by eapply lookup_weaken. Qed.

Lemma grows_lookup_dict s s' l :
  grows s s' → is_Some (store s !! l) →
  lookup_dict (store s') l = lookup_dict (store s) l.
Proof.
  intros Hg [d Hd]. unfold lookup_dict.
  by rewrite Hd, (grows_Some _ _ _ _ Hg Hd).
Qed.

Lemma fresh_None (h : heap) : h !! fresh (dom h) = None.
Proof. apply not_elem_of_dom_1, is_fresh. Qed.

Lemma to_dict_run c s :
  ∃ l md s',
    to_dict c s = (Ok l, s') ∧ grows s s' ∧ ticks s' = ticks s
    ∧ store s !! l = None
    ∧ store s' !! l = Some (record_dict c md)
    ∧ ((dict_truthy (lookup_dict (store s) (metadata c)) = true ∧ md = metadata c)
       ∨ (dict_truthy (lookup_dict (store s) (metadata c)) = false
          ∧ store s !! md = None ∧ store s' !! md = Some ∅)).
Proof.
  unfold to_dict, deref, gets, bind at 1.
  destruct (dict_truthy (lookup_dict (store s) (metadata c))) eqn:Ht.
  - eexists _, _, _. split; [reflexivity|].
    split; [apply grows_alloc|]. split; [done|].
    split; [apply fresh_None|]. split; [simpl; apply lookup_insert_eq|].
    by left.
  - eexists _, _, _. split; [reflexivity|].
    split; [eapply grows_trans; [apply grows_alloc|apply (grows_alloc (set_store _ s))]|].
    split; [done|].
    split.
    { eapply (grows_None s); [apply grows_alloc|]. apply (fresh_None (store (set_store _ s))). }
    split; [simpl; apply lookup_insert_eq|].
    right. split; [done|]. split; [apply fresh_None|].
    simpl. rewrite lookup_insert_ne; [apply lookup_insert_eq|].
    intros Heq.
    pose proof (fresh_None (<[fresh (dom (store s)):=∅]> (store s))) as Hn.
    rewrite Heq, lookup_insert_eq in Hn. done.
Qed.

Lemma snapshot_item_run kv s :
  ∃ item s', snapshot_item kv s = (Ok item, s') ∧ grows s s' ∧ ticks s' = ticks s
             ∧ snapshot_of s s' kv item.
Proof.
  destruct kv as [n c]. unfold snapshot_item.
  destruct (to_dict_run c s) as (l & md & s' & Hrun & Hg & Ht & Hl & Hl' & Hmd).
  exists (n, VRef l), s'. rewrite (bind_ok _ _ _ _ _ Hrun).
  split; [done|]. split; [done|]. split; [done|].
  split; [done|]. exists l, md. simpl.
  split; [done|]. split; [done|]. split; [done|]. split.
  - intros Hne. destruct Hmd as [[_ ->]|[Hf _]]; [done|].
    by apply dict_truthy_false in Hf.
  - intros _ He. destruct Hmd as [[Ht' _]|(_ & ? & ?)]; [|done].
    apply dict_truthy_false in He. congruence.
Qed.

Lemma mapM_snapshot_run kvs s :
  ∃ items s',
    mapM snapshot_item kvs s = (Ok items, s') ∧ grows s s' ∧ ticks s' = ticks s
    ∧ Forall2 (snapshot_of s s') kvs items.
Proof.
  revert s. induction kvs as [|kv kvs IH]; intros s.
  { exists [], s. split; [done|]. split; [apply grows_refl|]. split; [done|]. constructor. }
  destruct (snapshot_item_run kv s) as (item & s1 & Hrun & Hg1 & Ht1 & Hsnap).
  destruct (IH s1) as (items & s2 & Hrun2 & Hg2 & Ht2 & Hall).
  exists (item :: items), s2. simpl.
  rewrite (bind_ok _ _ _ _ _ Hrun), (bind_ok _ _ _ _ _ Hrun2).
  split; [done|]. split; [by eapply grows_trans|]. split; [congruence|].
  constructor.
  - destruct Hsnap as (Hn & l & md & Hv & Hl & Hl' & Hsh & Hem).
    split; [done|]. exists l, md.
    split; [done|]. split; [done|].
    split; [by eapply grows_Some|]. split; [done|].
    intros Hin He. destruct (Hem Hin He) as [Hm Hm'].
    split; [done|]. by eapply grows_Some.
  - eapply Forall2_impl; [apply Hall|].
    intros kv' item' (Hn & l & md & Hv & Hl & Hl' & Hsh & Hem).
    split; [done|]. exists l, md.
    split; [done|]. split; [by eapply grows_None|]. split; [done|]. split.
    + intros Hne. apply Hsh.
      destruct (store s !! metadata kv'.2) as [d|] eqn:Hd.
      * by rewrite (grows_lookup_dict s s1) by eauto.
      * exfalso. apply Hne. unfold lookup_dict. by rewrite Hd.
    + intros Hin He.
      assert (is_Some (store s1 !! metadata kv'.2)) as Hin1.
      { destruct Hin as [d Hd]. exists d. by eapply grows_Some. }
      assert (lookup_dict (store s1) (metadata kv'.2) = ∅) as He1
        by by rewrite (grows_lookup_dict s s1).
      destruct (Hem Hin1 He1) as [Hm Hm'].
      split; [by eapply grows_None|done].
Qed.

Lemma dict_truthy_insert (d : dict) k v : dict_truthy (<[k := v]> d) = true.
Proof.
  destruct (dict_truthy (<[k := v]> d)) eqn:Ht; [done|].
  apply dict_truthy_false in Ht. by apply insert_non_empty in Ht.
Qed.

Lemma dict_truthy_singleton k v : dict_truthy ({[k := v]} : dict) = true.
Proof. rewrite <- insert_empty. apply dict_truthy_insert. Qed.

Lemma grows_grows_but l s s' : grows s s' → grows_but l s s'.
Proof.
  intros (?&?&?&?&Hsub). repeat split; try done.
  intros l' d _ Hd. by eapply lookup_weaken.
Qed.

Lemma grows_but_trans l s1 s2 s3 :
  grows_but l s1 s2 → grows_but l s2 s3 → grows_but l s1 s3.
Proof.
  intros (?&?&?&?&H12) (?&?&?&?&H23). repeat split; try congruence.
  intros l' d Hne Hd. apply H23; [done|]. by apply H12.
Qed.

Lemma grows_but_grows l s s' :
  store s !! l = None → grows_but l s s' → grows s s'.
Proof.
  intros Hl (?&?&?&?&Hsub). repeat split; try done.
  apply map_subseteq_spec. intros l' d Hd. apply Hsub; [|done].
  intros ->. congruence.
Qed.

Lemma store_entry_run c l D s :
  store s !! l = Some D →
  dict_truthy (lookup_dict (store s) (metadata c)) = true →
  ∃ d s',
    (d ← to_dict c; dict_setitem l "system_resources" (VRef d)) s = (Ok tt, s')
    ∧ grows_but l s s'
    ∧ store s' !! l = Some (<["system_resources" := VRef d]> D)
    ∧ store s !! d = None
    ∧ store s' !! d = Some (record_dict c (metadata c)).
Proof.
  intros Hl Ht.
  destruct (to_dict_run c s) as (d & md & s1 & Hrun & Hg & _ & Hd & Hd' & Hmd).
  destruct Hmd as [[_ ->]|[Hf _]]; [|congruence].
  exists d, (set_store (λ h, <[l := <["system_resources" := VRef d]> (lookup_dict h l)]> h) s1).
  rewrite (bind_ok _ _ _ _ _ Hrun).
  assert (l ≠ d) as Hne by (intros ->; congruence).
  split; [done|]. split.
  { eapply grows_but_trans; [by apply grows_grows_but|].
    repeat split; try done. intros l' d' Hne' Hl'. simpl. by rewrite lookup_insert_ne. }
  split.
  { simpl. rewrite lookup_insert_eq. unfold lookup_dict.
    by rewrite (grows_Some _ _ _ _ Hg Hl). }
  split; [done|].
  simpl. by rewrite lookup_insert_ne.
Qed.

Lemma add_resource_component_run rm l D s :
  store s !! l = Some D →
  ∃ d t md s',
    add_resource_component rm l s = (Ok tt, s')
    ∧ grows_but l s s'
    ∧ store s' !! l = Some (<["system_resources" := VRef d]> D)
    ∧ store s !! d = None
    ∧ store s' !! d
      = Some (record_dict
                (new_ComponentHealth "system_resources" (resource_entry_status rm) t
                   (resource_entry_error rm) md) md).
Proof.
  intros Hl.
  assert (∀ e s1, grows s s1 → ∃ d t md s',
    (t ← now;
     md ← alloc ({[ "error" := VStr "Resource monitoring unavailable" ]} : dict);
     d ← to_dict (new_ComponentHealth "system_resources" UNKNOWN t (Some (exn_str e)) md);
     dict_setitem l "system_resources" (VRef d)) s1 = (Ok tt, s')
    ∧ grows_but l s s'
    ∧ store s' !! l = Some (<["system_resources" := VRef d]> D)
    ∧ store s !! d = None
    ∧ store s' !! d
      = Some (record_dict
                (new_ComponentHealth "system_resources" UNKNOWN t (Some (exn_str e)) md) md))
    as Hhandler.
  { intros e s1 Hg1.
    set (t := clock s1 (ticks s1)).
    set (s2 := tick s1).
    set (md := fresh (dom (store s2))).
    set (s3 := set_store (insert md ({[ "error" := VStr "Resource monitoring unavailable" ]} : dict)) s2).
    assert (grows s s3) as Hg3.
    { eapply grows_trans; [exact Hg1|]. eapply grows_trans; [apply grows_tick|].
      apply grows_alloc. }
    destruct (store_entry_run
                (new_ComponentHealth "system_resources" UNKNOWN t (Some (exn_str e)) md)
                l D s3) as (d & s' & Hrun & Hgb & Hl' & Hd & Hd').
    { by eapply grows_Some. }
    { simpl. rewrite lookup_dict_insert_eq. apply dict_truthy_singleton. }
    exists d, t, md, s'. split; [exact Hrun|].
    split; [eapply grows_but_trans; [by apply grows_grows_but|done]|].
    split; [done|]. split; [by eapply grows_None|done]. }
  unfold add_resource_component, try_except.
  unfold resource_entry_status, resource_entry_error, collaborator_result.
  destruct rm as [m|e]; [|apply Hhandler, grows_refl].
  unfold call at 1, bind at 1.
  destruct (check_resource_health m) as [rs|e]; [|apply Hhandler, grows_refl].
  unfold call at 1, bind at 1. unfold alloc at 1, bind at 1.
  destruct (get_current_metrics m) as [metrics|e]; [|apply Hhandler, grows_alloc].
  unfold call at 1, bind at 1. unfold now at 1, bind at 1.
  unfold alloc at 1, bind at 1.
  set (s1 := set_store (insert (fresh (dom (store s))) rs) s).
  set (t := clock s1 (ticks s1)).
  set (s2 := tick s1).
  set (md := fresh (dom (store s2))).
  match goal with
  | |- context [set_store (insert md ?X) s2] =>
      set (Dmd := X); set (s3 := set_store (insert md Dmd) s2)
  end.
  assert (grows s s3) as Hg3.
  { eapply grows_trans; [apply grows_alloc|]. eapply grows_trans; [apply (grows_tick s1)|].
    apply (grows_alloc s2). }
  destruct (store_entry_run
              (new_ComponentHealth "system_resources" (resource_health_status rs) t None md)
              l D s3) as (d & s' & Hrun & Hgb & Hl' & Hd & Hd').
  { by eapply grows_Some. }
  { simpl. rewrite lookup_dict_insert_eq. apply dict_truthy_insert. }
  exists d, t, md, s'. rewrite Hrun.
  split; [done|].
  split; [eapply grows_but_trans; [by apply grows_grows_but|done]|].
  split; [done|]. split; [by eapply grows_None|done].
Qed.

(** [get_all_health] never raises; it adds dictionary objects and leaves
    everything else alone.  [items] are the snapshots of the stored
    components, [d] the dictionary of the [system_resources] entry. *)
Lemma get_all_health_run rm s :
  ∃ l items d t md s',
    get_all_health rm s = (Ok l, s')
    ∧ grows s s'
    ∧ store s !! l = None
    ∧ store s' !! l = Some (<["system_resources" := VRef d]> (list_to_map items))
    ∧ Forall2 (snapshot_of s s') (map_to_list (_components s)) items
    ∧ store s !! d = None
    ∧ store s' !! d
      = Some (record_dict
                (new_ComponentHealth "system_resources" (resource_entry_status rm) t
                   (resource_entry_error rm) md) md).
Proof.
  unfold get_all_health, gets, bind at 1.
  change (λ '(n, health), d ← to_dict health; ret (n, VRef d)) with snapshot_item.
  destruct (mapM_snapshot_run (map_to_list (_components s)) s)
    as (items & s1 & Hrun1 & Hg1 & _ & Hall).
  rewrite (bind_ok _ _ _ _ _ Hrun1).
  unfold alloc at 1, bind at 1.
  set (l := fresh (dom (store s1))).
  set (s2 := set_store (insert l (list_to_map items)) s1).
  assert (store s1 !! l = None) as Hl1 by apply fresh_None.
  assert (store s2 !! l = Some (list_to_map items)) as Hl2
    by (simpl; apply lookup_insert_eq).
  destruct (add_resource_component_run rm l _ s2 Hl2)
    as (d & t & md & s' & Hrun & Hgb & Hl' & Hd & Hd').
  exists l, items, d, t, md, s'.
  rewrite (bind_ok _ _ _ _ _ Hrun).
  assert (grows s1 s') as Hg1'.
  { apply (grows_but_grows l); [done|].
    eapply grows_but_trans; [apply grows_grows_but, grows_alloc|done]. }
  split; [done|]. split; [by eapply grows_trans|].
  split; [by eapply grows_None|]. split; [done|].
  split.
  { eapply Forall2_impl; [apply Hall|].
    intros kv item (Hn & li & mdi & Hv & Hli & Hli' & Hsh & Hem).
    split; [done|]. exists li, mdi.
    split; [done|]. split; [done|]. split; [by eapply grows_Some|].
    split; [done|]. intros Hin He. destruct (Hem Hin He) as [Hm Hm'].
    split; [done|]. by eapply grows_Some. }
  split; [|done].
  eapply grows_None; [exact Hg1|]. eapply grows_None; [apply grows_alloc|exact Hd].
Qed.

Lemma Forall2_snapshot_names s s' kvs items :
  Forall2 (snapshot_of s s') kvs items → items.*1 = kvs.*1.
Proof.
  induction 1 as [|kv item kvs items [Hn _] _ IH]; [done|].
  rewrite !fmap_cons. by f_equal.
Qed.

(** ** Sequences of calls *)


Lemma run_cons o ops s : run (o :: ops) s = run ops (exec o s).2.
Proof. done. Qed.

Lemma marked_components n md k h' s :
  _components (marked n md k h' s) = <[n := h']> (_components (ensured n md s)).
Proof.
  unfold marked. simpl. f_equal.
  induction k as [|k IH]; [done|]. by simpl.
Qed.

Lemma ensured_record_present n md s c :
  _components s !! n = Some c → ensured_record n md s = c.
Proof. intros Hc. unfold ensured_record. by rewrite Hc. Qed.

Lemma ensured_lookup_ne n n' md s :
  n ≠ n' → _components (ensured n md s) !! n' = _components s !! n'.
Proof.
  intros Hne. unfold ensured. destruct (_components s !! n); [done|].
  simpl. by rewrite lookup_insert_ne.
Qed.

Lemma exec_recomputes o s :
  recomputes o = true →
  ∃ st n md k h',
    exec o s = (Ok tt, set_system_status st (marked n md k h' s))
    ∧ aggregate_of (_components (marked n md k h' s)) st.
Proof.
  destruct o as [| n md | n e f md | n e md | | | | | |]; try done; intros _; simpl.
  - destruct (mark_healthy_run n md s) as (st & Hrun & Hag). naive_solver.
  - destruct (mark_degraded_run n e f md s) as (st & Hrun & Hag). naive_solver.
  - destruct (mark_failed_run n e md s) as (st & Hrun & Hag). naive_solver.
Qed.




(** Two more ways in which the stored status parts from the claimed
    policy: an auto-registered Unknown component leaves Healthy in place,
    and a re-registration leaves a stale Degraded in place. *)
Example unknown_only_reports_healthy :
  let s := run [GetComponentHealth "x"] s0 in
  (status <$> _components s !! "x") = Some UNKNOWN
  ∧ size (_components s) = 1%nat
  ∧ _system_status s = HEALTHY.
Proof. vm_compute. done. Qed.

Example stale_after_register :
  let s := run [MarkFailed "a" None None; RegisterComponent "a" None] s0 in
  (status <$> _components s !! "a") = Some HEALTHY
  ∧ size (_components s) = 1%nat
  ∧ _system_status s = DEGRADED.
Proof. vm_compute. done. Qed.

(** ** [get_system_status] *)

Lemma count_if_size st (m : gmap string ComponentHealth) :
  count_if (λ c, is_status st (status c)) (values m)
  = Z.of_nat (size (filter (λ kv, status kv.2 = st) m)).
Proof.
  unfold count_if, values.
  induction m as [|n c m Hn Hfirst IH] using map_first_key_ind.
  { by rewrite map_filter_empty, map_to_list_empty. }
  rewrite map_to_list_insert_first_key by done.
  rewrite fmap_cons. simpl fst. simpl snd.
  destruct (decide (status c = st)) as [Hst|Hst].
  - rewrite filter_cons_True by (unfold is_status; by apply bool_decide_eq_true).
    rewrite map_filter_insert_True by done.
    rewrite map_size_insert_None by (by rewrite map_lookup_filter_None; left).
    rewrite fmap_cons. simpl foldr. rewrite IH. lia.
  - rewrite filter_cons_False
      by (unfold is_status; rewrite bool_decide_eq_true; done).
    rewrite map_filter_insert_False by done.
    rewrite delete_id by done. apply IH.
Qed.

Lemma get_system_status_run rm s :
  ∃ l counts all items d t md s',
    get_system_status rm s = (Ok l, s')
    ∧ grows s s'
    ∧ store s !! l = None
    ∧ store s' !! l
      = Some ({[ "overall_status" := VStr (HealthStatus_value (_system_status s));
                 "timestamp" := VStr (isoformat (clock s (ticks s)));
                 "component_counts" := VRef counts;
                 "components" := VRef all ]} : dict)
    ∧ store s' !! counts = Some (counts_dict (_components s))
    ∧ store s' !! all = Some (<["system_resources" := VRef d]> (list_to_map items))
    ∧ items.*1 = (map_to_list (_components s)).*1
    ∧ store s' !! d
      = Some (record_dict
                (new_ComponentHealth "system_resources" (resource_entry_status rm) t
                   (resource_entry_error rm) md) md).
Proof.
  unfold get_system_status, gets, bind at 1. unfold bind at 1.
  unfold now, bind at 1. unfold alloc at 1, bind at 1.
  set (s1 := tick s).
  set (counts := fresh (dom (store s1))).
  set (s2 := set_store (insert counts _) s1).
  assert (grows s s2) as Hg2.
  { eapply grows_trans; [apply grows_tick|apply (grows_alloc s1)]. }
  destruct (get_all_health_run rm s2)
    as (all & items & d & t & md & s3 & Hrun & Hg3 & Hall & Hall' & Hitems & Hd & Hd').
  rewrite (bind_ok _ _ _ _ _ Hrun).
  eexists _, counts, all, items, d, t, md, _. split; [reflexivity|].
  split.
  { eapply grows_trans; [exact Hg2|]. eapply grows_trans; [exact Hg3|]. apply grows_alloc. }
  split.
  { eapply grows_None; [exact Hg2|]. eapply grows_None; [exact Hg3|]. apply fresh_None. }
  split; [simpl; apply lookup_insert_eq|].
  split.
  { eapply grows_Some; [apply grows_alloc|]. eapply grows_Some; [exact Hg3|].
    simpl. apply lookup_insert_eq. }
  split; [eapply grows_Some; [apply grows_alloc|exact Hall']|].
  split; [by eapply Forall2_snapshot_names|].
  eapply grows_Some; [apply grows_alloc|exact Hd'].
Qed.

(** ** The effect of each call on the component map *)

Lemma marked_components_insert n md k h' s :
  _components (marked n md k h' s) = <[n := h']> (_components s).
Proof.
  rewrite marked_components. unfold ensured.
  destruct (_components s !! n); [done|].
  simpl. apply insert_insert_eq.
Qed.

Lemma ensured_record_name n md s :
  name (ensured_record n md s)
  = match _components s !! n with Some c => name c | None => n end.
Proof. unfold ensured_record. by destruct (_components s !! n). Qed.

(** No call raises, and each one writes at most one record. *)
Lemma exec_effect o s :
  ∃ s', exec o s = (Ok tt, s') ∧
    match o with
    | Reset => _components s' = ∅
    | RegisterComponent n md =>
        ∃ h, _components s' = <[n := h]> (_components s)
             ∧ name h = n ∧ error_count h = 0 ∧ warning_count h = 0
    | MarkHealthy n md =>
        ∃ h, _components s' = <[n := h]> (_components s)
             ∧ name h = name (ensured_record n md s)
             ∧ error_count h = error_count (ensured_record n md s)
             ∧ warning_count h = warning_count (ensured_record n md s)
    | MarkDegraded n e f md =>
        ∃ h, _components s' = <[n := h]> (_components s)
             ∧ name h = name (ensured_record n md s)
             ∧ error_count h = error_count (ensured_record n md s)
             ∧ warning_count h = warning_count (ensured_record n md s) + 1
    | MarkFailed n e md =>
        ∃ h, _components s' = <[n := h]> (_components s)
             ∧ name h = name (ensured_record n md s)
             ∧ error_count h = error_count (ensured_record n md s) + 1
             ∧ warning_count h = warning_count (ensured_record n md s)
    | GetComponentHealth n =>
        match _components s !! n with
        | Some _ => _components s' = _components s
        | None => ∃ h, _components s' = <[n := h]> (_components s)
                       ∧ name h = n ∧ error_count h = 0 ∧ warning_count h = 0
        end
    | _ => _components s' = _components s
    end.
Proof.
  destruct o as [n md | n md | n e f md | n e md | n | rm | rm | | |]; simpl.
  - eexists. split; [apply register_component_run|]. eexists. by split.
  - destruct (mark_healthy_run n md s) as (st & Hrun & _). simpl in Hrun.
    eexists. split; [exact Hrun|]. eexists.
    split; [apply (marked_components_insert n md 1)|done].
  - destruct (mark_degraded_run n e f md s) as (st & Hrun & _). simpl in Hrun.
    eexists. split; [exact Hrun|]. eexists.
    split; [apply (marked_components_insert n md 2)|done].
  - destruct (mark_failed_run n e md s) as (st & Hrun & _). simpl in Hrun.
    eexists. split; [exact Hrun|]. eexists.
    split; [apply (marked_components_insert n md 2)|done].
  - destruct (_components s !! n) as [c|] eqn:Hc.
    + eexists. rewrite (bind_ok _ _ _ _ _ (get_component_health_present n c s Hc)).
      by split.
    + eexists. rewrite (bind_ok _ _ _ _ _ (get_component_health_absent n s Hc)).
      split; [done|]. eexists. by split.
  - destruct (get_all_health_run rm s) as (l & ? & ? & ? & ? & s' & Hrun & Hg & _).
    exists s'. rewrite (bind_ok _ _ _ _ _ Hrun). split; [done|]. apply Hg.
  - destruct (get_system_status_run rm s)
      as (l & ? & ? & ? & ? & ? & ? & s' & Hrun & Hg & _).
    exists s'. rewrite (bind_ok _ _ _ _ _ Hrun). split; [done|]. apply Hg.
  - eexists. by split.
  - eexists. by split.
  - eexists. by split.
Qed.

(** ** Counters *)






(** ** Metadata merging *)

Lemma marked_store n md k h' s :
  store (marked n md k h' s)
  = merged (ensured_record n md s) md (store (ensured n md s)).
Proof.
  unfold marked. simpl. f_equal.
  induction k as [|k IH]; [done|]. by simpl.
Qed.

Lemma marked_ticks n md k h' s :
  ticks (marked n md k h' s) = (ticks (ensured n md s) + k)%nat.
Proof.
  unfold marked. simpl.
  induction k as [|k IH]; simpl; [lia|]. rewrite IH. lia.
Qed.

Lemma ensured_ticks n md s : (ticks s ≤ ticks (ensured n md s))%nat.
Proof. unfold ensured. destruct (_components s !! n); simpl; lia. Qed.

(** After any of the three marking methods, the component's metadata is
    the supplied metadata laid over what was there. *)
Lemma marked_metadata n md k h' s :
  lookup_dict (store (marked n md k h' s)) (metadata (ensured_record n md s))
  = arg_dict (store s) md ∪ prior_metadata s n.
Proof.
  rewrite marked_store. unfold ensured, ensured_record, prior_metadata, merged.
  destruct (_components s !! n) as [c|] eqn:Hc.
  - destruct (dict_truthy (arg_dict (store s) md)) eqn:Ht.
    + by rewrite lookup_dict_insert_eq.
    + apply dict_truthy_false in Ht. rewrite Ht. by rewrite (left_id_L ∅ (∪)).
  - simpl.
    assert (arg_dict (or_empty_heap md (store s)) md = arg_dict (store s) md) as ->.
    { destruct md as [l|]; [apply or_empty_lookup|done]. }
    rewrite (right_id_L ∅ (∪)).
    destruct (dict_truthy (arg_dict (store s) md)) eqn:Ht.
    + rewrite lookup_dict_insert_eq, or_empty_contents. apply (idemp_L (∪)).
    + apply or_empty_contents.
Qed.

(** C5.  [mark_failed] never raises; afterwards the component's record has
    status Failed, an [error_count] one above what it was (1 for a name
    seen for the first time), the supplied message as [last_error], a
    [last_error_time] and a [last_updated] read from the clock during the
    call, the supplied metadata merged into its metadata, and the
    [fallback_active] it had before (the default, false, for a new name). *)
Theorem C5_mark_failed (n : string) (e : option string) (md : option loc) (s : St) :
  ∃ s' c',
    mark_failed n e md s = (Ok tt, s')
    ∧ _components s' !! n = Some c'
    ∧ status c' = FAILED
    ∧ error_count c' = default 0 (error_count <$> _components s !! n) + 1
    ∧ warning_count c' = default 0 (warning_count <$> _components s !! n)
    ∧ last_error c' = e
    ∧ (∃ k, (ticks s ≤ k < ticks s')%nat ∧ last_error_time c' = Some (clock s k))
    ∧ (∃ k, (ticks s ≤ k < ticks s')%nat ∧ last_updated c' = clock s k)
    ∧ lookup_dict (store s') (metadata c') = arg_dict (store s) md ∪ prior_metadata s n
    ∧ fallback_active c' = default false (fallback_active <$> _components s !! n).
Proof.
  destruct (mark_failed_run n e md s) as (st & Hrun & _). simpl in Hrun.
  eexists _, _. split; [exact Hrun|].
  split; [simpl; apply lookup_insert_eq|].
  pose proof (ensured_ticks n md s) as Hticks.
  split; [done|].
  split. { simpl. unfold ensured_record. by destruct (_components s !! n). }
  split. { simpl. unfold ensured_record. by destruct (_components s !! n). }
  split; [done|].
  split.
  { exists (ticks (ensured n md s) + 0)%nat. split; [|done].
    change (ticks (set_system_status st ?x)) with (ticks x).
    rewrite marked_ticks. lia. }
  split.
  { exists (ticks (ensured n md s) + 1)%nat. split; [|done].
    change (ticks (set_system_status st ?x)) with (ticks x).
    rewrite marked_ticks. lia. }
  split.
  { change (store (set_system_status st ?x)) with (store x).
    apply (marked_metadata n md 2). }
  simpl. unfold ensured_record. by destruct (_components s !! n).
Qed.

(** C7.  For a component that is recorded, [mark_healthy] never raises,
    sets its status to Healthy and clears [fallback_active]; in its
    metadata every key of the supplied metadata has the supplied value and
    every other key keeps the value it had.  The other fields stay. *)
Theorem C7_mark_healthy_merge (c : string) (md : option loc) (s : St)
    (h : ComponentHealth) :
  _components s !! c = Some h →
  ∃ s' h',
    mark_healthy c md s = (Ok tt, s')
    ∧ _components s' !! c = Some h'
    ∧ status h' = HEALTHY
    ∧ fallback_active h' = false
    ∧ (∀ k v, arg_dict (store s) md !! k = Some v →
              lookup_dict (store s') (metadata h') !! k = Some v)
    ∧ (∀ k, arg_dict (store s) md !! k = None →
            lookup_dict (store s') (metadata h') !! k
            = lookup_dict (store s) (metadata h) !! k)
    ∧ name h' = name h ∧ metadata h' = metadata h
    ∧ error_count h' = error_count h ∧ warning_count h' = warning_count h
    ∧ last_error h' = last_error h ∧ last_error_time h' = last_error_time h.
Proof.
  intros Hh.
  destruct (mark_healthy_run c md s) as (st & Hrun & _). simpl in Hrun.
  pose proof (marked_metadata c md 1
    (healthy_record (ensured_record c md s) (reading c md s 0)) s) as Hmeta.
  unfold prior_metadata in Hmeta.
  rewrite (ensured_record_present c md s h Hh) in Hmeta, Hrun.
  rewrite Hh in Hmeta.
  eexists _, _. split; [exact Hrun|].
  split; [simpl; apply lookup_insert_eq|].
  split; [done|]. split; [done|].
  change (store (set_system_status st ?x)) with (store x).
  change (metadata (healthy_record h ?t)) with (metadata h).
  rewrite Hmeta.
  split. { intros k v Hk. by apply lookup_union_Some_l. }
  split. { intros k Hk. by apply lookup_union_r. }
  done.
Qed.

(** The example of the specification: [register("c", {"a":1})] followed by
    [mark_healthy("c", {"b":2})] leaves the metadata [{"a":1,"b":2}].  The
    two dictionaries of the caller are the objects 1 and 2. *)
Lemma C7_mark_healthy_merge_witness :
  let callers : heap := {[ 1%positive := {[ "a" := VInt 1 ]}; 2%positive := {[ "b" := VInt 2 ]} ]} in
  let s := run [RegisterComponent "c" (Some 1%positive)] (fresh_monitor callers (λ _, noon) 0) in
  let s' := (mark_healthy "c" (Some 2%positive) s).2 in
  is_Some (_components s !! "c")
  ∧ ∃ h', _components s' !! "c" = Some h'
          ∧ status h' = HEALTHY
          ∧ lookup_dict (store s') (metadata h') !! "a" = Some (VInt 1)
          ∧ lookup_dict (store s') (metadata h') !! "b" = Some (VInt 2)
          ∧ lookup_dict (store s') (metadata h') !! "c" = None
          ∧ size (lookup_dict (store s') (metadata h')) = 2%nat.
Proof.
  intros callers s s'.
  assert (_components s !! "c"
          = Some (new_ComponentHealth "c" HEALTHY noon None 1%positive)) as Hc
    by (vm_compute; reflexivity).
  split; [by rewrite Hc|].
  destruct (C7_mark_healthy_merge "c" (Some 2%positive) s _ Hc)
    as (s1 & h' & Hrun & Hh' & Hst & _ & Hnew & Hold & _).
  subst s'. rewrite Hrun. simpl. exists h'.
  split; [exact Hh'|]. split; [exact Hst|].
  split. { rewrite (Hold "a"); vm_compute; reflexivity. }
  split. { apply Hnew. vm_compute. reflexivity. }
  split. { rewrite (Hold "c"); vm_compute; reflexivity. }
  clear Hnew Hold Hst.
  assert (s1 = (mark_healthy "c" (Some 2%positive) s).2) as -> by (by rewrite Hrun).
  clear Hrun. revert Hh'. vm_compute. intros [= <-]. reflexivity.
Defined.

(** ** One record per name *)

Lemma names_ok_insert s s' n h :
  names_ok s → _components s' = <[n := h]> (_components s) → name h = n →
  names_ok s'.
Proof.
  intros Hok Hcomp Hn k c. rewrite Hcomp.
  destruct (decide (n = k)) as [->|Hne].
  - rewrite lookup_insert_eq. by intros [= <-].
  - rewrite lookup_insert_ne by done. apply Hok.
Qed.

Lemma names_ok_step o s : names_ok s → names_ok (exec o s).2.
Proof.
  intros Hok.
  destruct (exec_effect o s) as (s' & Hrun & Heff). rewrite Hrun. simpl.
  assert (_components s' = _components s → names_ok s') as Hsame.
  { intros Heq k c. rewrite Heq. apply Hok. }
  assert (∀ n md, name (ensured_record n md s) = n) as Hrec.
  { intros n md. rewrite ensured_record_name.
    destruct (_components s !! n) eqn:Hn; [by apply Hok|done]. }
  destruct o as [n md | n md | n e f md | n e md | n | rm | rm | | |];
    try (by apply Hsame).
  - destruct Heff as (h & Hcomp & Hn & _). by eapply names_ok_insert.
  - destruct Heff as (h & Hcomp & Hn & _). eapply names_ok_insert; [done..|].
    by rewrite Hn, Hrec.
  - destruct Heff as (h & Hcomp & Hn & _). eapply names_ok_insert; [done..|].
    by rewrite Hn, Hrec.
  - destruct Heff as (h & Hcomp & Hn & _). eapply names_ok_insert; [done..|].
    by rewrite Hn, Hrec.
  - destruct (_components s !! n) eqn:Hn'; [by apply Hsame|].
    destruct Heff as (h & Hcomp & Hn & _). by eapply names_ok_insert.
  - intros k c. by rewrite Heff, lookup_empty.
Qed.

Lemma names_ok_run ops s : names_ok s → names_ok (run ops s).
Proof.
  revert s. induction ops as [|o ops IH]; intros s Hok; [done|].
  rewrite run_cons. by apply IH, names_ok_step.
Qed.

Lemma names_ok_fresh h c t : names_ok (fresh_monitor h c t).
Proof. intros k x. simpl. by rewrite lookup_empty. Qed.

(** Every recorded name is a key of the dictionary [get_all_health]
    returns. *)
Lemma get_all_health_includes rm s n :
  is_Some (_components s !! n) →
  ∃ l s' D, get_all_health rm s = (Ok l, s')
            ∧ store s' !! l = Some D ∧ is_Some (D !! n).
Proof.
  intros [c Hc].
  destruct (get_all_health_run rm s)
    as (l & items & d & t & md & s' & Hrun & _ & _ & Hl & Hitems & _).
  exists l, s', (<["system_resources" := VRef d]> (list_to_map items)).
  split; [done|]. split; [done|].
  destruct (decide ("system_resources" = n)) as [<-|Hne].
  { rewrite lookup_insert_eq. eauto. }
  rewrite lookup_insert_ne by done.
  destruct (list_to_map items !! n) as [v|] eqn:Hv; [eauto|].
  apply not_elem_of_list_to_map in Hv.
  rewrite (Forall2_snapshot_names _ _ _ _ Hitems) in Hv.
  exfalso. apply Hv. apply list_elem_of_fmap. exists (n, c).
  split; [done|]. by apply elem_of_map_to_list.
Qed.

(** C6.  In every state the registry can reach, [get_component_health] of
    a name that is not recorded does not raise, returns a record of status
    Unknown and records it, so that the [get_all_health] that follows has
    the name among its keys; and at all times the record kept under a name
    bears that name, the map holding one record per name. *)
Theorem C6_auto_registration (ops : list op) (n : string) (rm : Res ResourceMonitor)
    (h : heap) (clk : nat → datetime) (t : nat) :
  let s := run ops (fresh_monitor h clk t) in
  _components s !! n = None →
  ∃ c s1,
    get_component_health n s = (Ok c, s1)
    ∧ status c = UNKNOWN
    ∧ name c = n
    ∧ _components s1 !! n = Some c
    ∧ (∃ l s2 D, get_all_health rm s1 = (Ok l, s2)
                 ∧ store s2 !! l = Some D ∧ is_Some (D !! n))
    ∧ names_ok s ∧ names_ok s1.
Proof.
  intros s Hn.
  assert (names_ok s) as Hok by apply names_ok_run, names_ok_fresh.
  eexists _, _. split; [by apply get_component_health_absent|].
  split; [done|]. split; [done|].
  assert (_components (auto_registered n s) !! n
          = Some (new_ComponentHealth n UNKNOWN (clock s (ticks s)) None
                    (fresh (dom (store s))))) as Hc
    by (simpl; apply lookup_insert_eq).
  split; [exact Hc|].
  split; [apply get_all_health_includes; by rewrite Hc|].
  split; [exact Hok|].
  by eapply names_ok_insert.
Qed.

Lemma C6_auto_registration_witness :
  let s := run [RegisterComponent "db" None] s0 in
  _components s !! "never-seen" = None
  ∧ ∃ c s1, get_component_health "never-seen" s = (Ok c, s1)
            ∧ status c = UNKNOWN
            ∧ ∃ l s2 D, get_all_health (Raise (Exception "down")) s1 = (Ok l, s2)
                        ∧ store s2 !! l = Some D ∧ is_Some (D !! "never-seen").
Proof.
  intros s.
  assert (_components s !! "never-seen" = None) as Hn by (vm_compute; reflexivity).
  split; [exact Hn|].
  destruct (C6_auto_registration [RegisterComponent "db" None] "never-seen"
              (Raise (Exception "down")) ∅ (λ _, noon) 0 Hn)
    as (c & s1 & Hrun & Hst & _ & _ & Hall & _).
  exists c, s1. split; [exact Hrun|]. split; [exact Hst|exact Hall].
Defined.

(** ** The [system_resources] entry *)

Lemma record_dict_status c md :
  record_dict c md !! "status" = Some (VStr (HealthStatus_value (status c))).
Proof. reflexivity. Qed.

Lemma record_dict_last_error c md :
  record_dict c md !! "last_error" = Some (opt_str (last_error c)).
Proof. reflexivity. Qed.

Lemma record_dict_name c md : record_dict c md !! "name" = Some (VStr (name c)).
Proof. reflexivity. Qed.


Lemma system_resources_entry_run rm s :
  system_resources_entry rm s
  = Some (VStr (HealthStatus_value (resource_entry_status rm)),
          opt_str (resource_entry_error rm)).
Proof.
  unfold system_resources_entry.
  destruct (get_all_health_run rm s)
    as (l & items & d & t & md & s' & Hrun & _ & _ & Hl & _ & _ & Hd).
  rewrite Hrun. unfold lookup_dict. rewrite Hl. simpl.
  rewrite lookup_insert_eq, Hd. simpl.
  by rewrite record_dict_status, record_dict_last_error.
Qed.

(** C4.  [get_all_health] never raises, whatever the resource monitor
    does.  When [get_resource_monitor()], [check_resource_health()] or
    [get_current_metrics()] raises [e], the dictionary returned has a
    [system_resources] entry of status [unknown] whose [last_error] is
    [str(e)]; when they all return and the overall verdict is ok, warning
    or critical, the entry's status is healthy, degraded or failed. *)
Theorem C4_resource_failure_contained (s : St) :
  (∀ rm, ∃ l s', get_all_health rm s = (Ok l, s'))
  ∧ (∀ e, system_resources_entry (Raise e) s
          = Some (VStr "unknown", VStr (exn_str e)))
  ∧ (∀ e metrics,
       system_resources_entry
         (Ok {| check_resource_health := Raise e; get_current_metrics := metrics |}) s
       = Some (VStr "unknown", VStr (exn_str e)))
  ∧ (∀ e rs,
       system_resources_entry
         (Ok {| check_resource_health := Ok rs; get_current_metrics := Raise e |}) s
       = Some (VStr "unknown", VStr (exn_str e)))
  ∧ (∀ v rs metrics,
       system_resources_entry
         (Ok {| check_resource_health := Ok (<["overall" := VStr (verdict_value v)]> rs);
                get_current_metrics := Ok metrics |}) s
       = Some (VStr (HealthStatus_value (verdict_status v)), VNone)).
Proof.
  split.
  { intros rm. destruct (get_all_health_run rm s) as (l & ? & ? & ? & ? & s' & Hrun & _).
    eauto. }
  split; [intros; by rewrite system_resources_entry_run|].
  split; [intros; by rewrite system_resources_entry_run|].
  split; [intros; by rewrite system_resources_entry_run|].
  intros v rs metrics. rewrite system_resources_entry_run.
  unfold resource_entry_status, resource_entry_error. simpl.
  unfold resource_health_status. rewrite lookup_insert_eq.
  by destruct v.
Qed.

(** ** The snapshot inside [get_system_status] *)

Lemma snapshot_size (items : list (string * value)) (m : gmap string ComponentHealth) d :
  items.*1 = (map_to_list m).*1 →
  m !! "system_resources" = None →
  size (<["system_resources" := d]> (list_to_map items : dict)) = S (size m).
Proof.
  intros Hnames Hsr.
  assert (NoDup items.*1) as Hnd by (rewrite Hnames; apply NoDup_fst_map_to_list).
  rewrite map_size_insert_None.
  - f_equal. rewrite map_size_list_to_map by done.
    rewrite <- (length_fmap fst), Hnames, length_fmap. apply length_map_to_list.
  - apply not_elem_of_list_to_map. rewrite Hnames.
    intros Hin. apply list_elem_of_fmap in Hin as ([k c] & Hk & Hin).
    apply elem_of_map_to_list in Hin. simpl in Hk. subst k. congruence.
Qed.

(** C10.  When no component named [system_resources] is recorded, the
    dictionary under the [components] key of [get_system_status] has one
    entry more than [component_counts.total]: the [system_resources]
    entry that [get_all_health] adds.  The four counts are those of the
    stored map alone. *)
Theorem C10_snapshot_has_one_more (rm : Res ResourceMonitor) (s : St) :
  _components s !! "system_resources" = None →
  ∃ l s' counts all,
    get_system_status rm s = (Ok l, s')
    ∧ lookup_dict (store s') l !! "components" = Some (VRef all)
    ∧ lookup_dict (store s') l !! "component_counts" = Some (VRef counts)
    ∧ lookup_dict (store s') counts !! "total" = Some (VInt (Z.of_nat (size (_components s))))
    ∧ lookup_dict (store s') counts !! "healthy"
      = Some (VInt (count_status HEALTHY (_components s)))
    ∧ lookup_dict (store s') counts !! "degraded"
      = Some (VInt (count_status DEGRADED (_components s)))
    ∧ lookup_dict (store s') counts !! "failed"
      = Some (VInt (count_status FAILED (_components s)))
    ∧ size (lookup_dict (store s') all) = S (size (_components s))
    ∧ is_Some (lookup_dict (store s') all !! "system_resources").
Proof.
  intros Hsr.
  destruct (get_system_status_run rm s)
    as (l & counts & all & items & d & t & md & s' & Hrun & _ & _ & Hl & Hc & Hall & Hn & _).
  exists l, s', counts, all. split; [exact Hrun|].
  unfold lookup_dict, count_status. rewrite Hl, Hc, Hall. simpl.
  rewrite <- !count_if_size.
  split; [reflexivity|]. split; [reflexivity|]. split; [reflexivity|].
  split; [reflexivity|]. split; [reflexivity|]. split; [reflexivity|].
  split; [by apply snapshot_size|].
  rewrite lookup_insert_eq. eauto.
Qed.

Lemma C10_snapshot_has_one_more_witness :
  let s := run [RegisterComponent "db" None; MarkFailed "cache" None None] s0 in
  _components s !! "system_resources" = None
  ∧ size (_components s) = 2%nat
  ∧ ∃ l s' all,
      get_system_status (Raise (Exception "down")) s = (Ok l, s')
      ∧ lookup_dict (store s') l !! "components" = Some (VRef all)
      ∧ size (lookup_dict (store s') all) = 3%nat.
Proof.
  intros s.
  assert (_components s !! "system_resources" = None) as Hsr by (vm_compute; reflexivity).
  assert (size (_components s) = 2%nat) as Hsz by (vm_compute; reflexivity).
  split; [exact Hsr|]. split; [exact Hsz|].
  destruct (C10_snapshot_has_one_more (Raise (Exception "down")) s Hsr)
    as (l & s' & counts & all & Hrun & Hall & _ & _ & _ & _ & _ & Hsize & _).
  exists l, s', all. split; [exact Hrun|]. split; [exact Hall|].
  rewrite Hsize, Hsz. reflexivity.
Defined.

(** ** What the caller can reach through the dictionary returned *)



(** The metadata of every recorded component is an object of the heap,
    whatever the calls and their arguments: [metadata or {}] takes the
    caller's dictionary only when it is not empty, hence exists. *)
Lemma or_empty_is_Some md h : is_Some (or_empty_heap md h !! or_empty_loc md h).
Proof.
  unfold or_empty_heap, or_empty_loc. destruct md as [l|].
  - destruct (dict_truthy (lookup_dict h l)) eqn:Ht.
    + unfold lookup_dict in Ht. destruct (h !! l); [eauto|done].
    + rewrite lookup_insert_eq. eauto.
  - rewrite lookup_insert_eq. eauto.
Qed.

Lemma or_empty_heap_mono md h l : is_Some (h !! l) → is_Some (or_empty_heap md h !! l).
Proof.
  intros Hl. unfold or_empty_heap.
  assert (is_Some (<[fresh (dom h) := ∅]> h !! l)) as Hins
    by (rewrite lookup_insert_is_Some; destruct (decide (fresh (dom h) = l)); eauto).
  destruct md as [l'|]; [|done]. by destruct (dict_truthy _).
Qed.

Lemma merged_mono health md h l : is_Some (h !! l) → is_Some (merged health md h !! l).
Proof.
  intros Hl. unfold merged. destruct (dict_truthy _); [|done].
  rewrite lookup_insert_is_Some. destruct (decide (metadata health = l)); eauto.
Qed.

Lemma wf_store_insert s s' n h :
  wf_store s →
  (∀ l, is_Some (store s !! l) → is_Some (store s' !! l)) →
  _components s' = <[n := h]> (_components s) →
  is_Some (store s' !! metadata h) →
  wf_store s'.
Proof.
  intros Hwf Hmono Hcomp Hh k c. rewrite Hcomp.
  destruct (decide (n = k)) as [->|Hne].
  - rewrite lookup_insert_eq. by intros [= <-].
  - rewrite lookup_insert_ne by done. intros Hc. eapply Hmono, Hwf, Hc.
Qed.

Lemma wf_store_registered n md s : wf_store s → wf_store (registered n md s).
Proof.
  intros Hwf. eapply (wf_store_insert s); [done| |done|].
  - intros l. apply or_empty_heap_mono.
  - apply or_empty_is_Some.
Qed.

Lemma wf_store_ensured n md s : wf_store s → wf_store (ensured n md s).
Proof.
  intros Hwf. unfold ensured. destruct (_components s !! n); [done|].
  by apply wf_store_registered.
Qed.

Lemma wf_store_marked n md k h' st s :
  metadata h' = metadata (ensured_record n md s) →
  wf_store s → wf_store (set_system_status st (marked n md k h' s)).
Proof.
  intros Hmd Hwf. apply (wf_store_ensured n md) in Hwf.
  eapply (wf_store_insert (ensured n md s)); [done| | |].
  - intros l. change (store (set_system_status st ?x)) with (store x).
    rewrite marked_store. apply merged_mono.
  - change (_components (set_system_status st ?x)) with (_components x).
    apply marked_components.
  - change (store (set_system_status st ?x)) with (store x).
    rewrite marked_store, Hmd. apply merged_mono.
    eapply Hwf, ensured_lookup.
Qed.

Lemma wf_store_grows s s' : wf_store s → grows s s' → wf_store s'.
Proof.
  intros Hwf Hg k c Hc. destruct Hg as (_ & Hcomp & _ & _ & Hsub).
  rewrite Hcomp in Hc. destruct (Hwf k c Hc) as [d Hd].
  exists d. by eapply lookup_weaken.
Qed.

Lemma wf_store_step o s : wf_store s → wf_store (exec o s).2.
Proof.
  intros Hwf.
  destruct o as [n md | n md | n e f md | n e md | n | rm | rm | | |]; simpl.
  - rewrite register_component_run. by apply wf_store_registered.
  - destruct (mark_healthy_run n md s) as (st & Hrun & _). simpl in Hrun.
    rewrite Hrun. by apply wf_store_marked.
  - destruct (mark_degraded_run n e f md s) as (st & Hrun & _). simpl in Hrun.
    rewrite Hrun. by apply wf_store_marked.
  - destruct (mark_failed_run n e md s) as (st & Hrun & _). simpl in Hrun.
    rewrite Hrun. by apply wf_store_marked.
  - destruct (_components s !! n) as [c|] eqn:Hc.
    + by rewrite (bind_ok _ _ _ _ _ (get_component_health_present n c s Hc)).
    + rewrite (bind_ok _ _ _ _ _ (get_component_health_absent n s Hc)).
      eapply (wf_store_insert s); [done| |done|].
      * intros l Hl. simpl. rewrite lookup_insert_is_Some.
        destruct (decide (fresh (dom (store s)) = l)); eauto.
      * simpl. rewrite lookup_insert_eq. eauto.
  - destruct (get_all_health_run rm s) as (l & ? & ? & ? & ? & s' & Hrun & Hg & _).
    rewrite (bind_ok _ _ _ _ _ Hrun). by eapply wf_store_grows.
  - destruct (get_system_status_run rm s)
      as (l & ? & ? & ? & ? & ? & ? & s' & Hrun & Hg & _).
    rewrite (bind_ok _ _ _ _ _ Hrun). by eapply wf_store_grows.
  - done.
  - done.
  - intros k c. simpl. by rewrite lookup_empty.
Qed.

Lemma wf_store_run ops s : wf_store s → wf_store (run ops s).
Proof.
  revert s. induction ops as [|o ops IH]; intros s Hwf; [done|].
  rewrite run_cons. by apply IH, wf_store_step.
Qed.

Lemma wf_store_fresh h c t : wf_store (fresh_monitor h c t).
Proof. intros k x. simpl. by rewrite lookup_empty. Qed.




(** ** Reset and the singleton *)

Lemma invoke_run {A} (self : oid) (m : HM A) w o r s :
  objects w !! self = Some o → m (enter o w) = (r, s) →
  invoke self m w = (r, leave self s w).
Proof. intros Ho Hm. unfold invoke. by rewrite Ho, Hm. Qed.

Lemma invoke_get_system_status_empty self rm w i :
  objects w !! self = Some i →
  obj_components i = ∅ → obj_system_status i = HEALTHY →
  reports_empty_healthy self rm w.
Proof.
  intros Hi Hc Hst.
  destruct (get_system_status_run rm (enter i w))
    as (l & counts & all & items & d & t & md & s' & Hrun & _ & _ & Hl & Hcounts & _).
  exists l, (leave self s' w), counts.
  split; [by apply (invoke_run self _ w i)|].
  simpl. unfold lookup_dict. rewrite Hl, Hcounts. simpl.
  rewrite Hst, Hc. by split.
Qed.

(** C8.  [reset] on a live instance does not raise and leaves it with no
    component records and the stored status Healthy, so that its
    [get_system_status] reports [healthy] and a total of 0; both the class
    attribute and the module global are cleared, and the next
    [get_health_monitor()] returns an object that did not exist before,
    initialised, with no component records. *)
Theorem C8_reset (w : World) (self : oid) (o : Instance) (rm : Res ResourceMonitor) :
  objects w !! self = Some o →
  ∃ w1,
    reset self w = (Ok tt, w1)
    ∧ (∃ o1, objects w1 !! self = Some o1
             ∧ obj_components o1 = ∅ ∧ obj_system_status o1 = HEALTHY)
    ∧ reports_empty_healthy self rm w1
    ∧ cls_instance w1 = None
    ∧ _health_monitor w1 = None
    ∧ ∃ new w2 i,
        get_health_monitor w1 = (Ok new, w2)
        ∧ objects w1 !! new = None
        ∧ new ≠ self
        ∧ _health_monitor w2 = Some new
        ∧ cls_instance w2 = Some new
        ∧ objects w2 !! new = Some i
        ∧ obj_initialized i = true
        ∧ obj_components i = ∅
        ∧ obj_system_status i = HEALTHY
        ∧ reports_empty_healthy new rm w2.
Proof.
  intros Ho.
  set (s_r := set_initialized false
                (set_system_status HEALTHY (set_components (λ _, ∅) (enter o w)))).
  set (w1 := set_health_monitor None (set_cls_instance None (leave self s_r w))).
  assert (reset self w = (Ok tt, w1)) as Hreset.
  { unfold reset. by rewrite (bind_ok _ _ _ _ _ (invoke_run self reset_locked w o _ _ Ho eq_refl)). }
  assert (objects w1 !! self
          = Some {| obj_initialized := false; obj_components := ∅;
                    obj_system_status := HEALTHY |}) as Hself
    by (simpl; apply lookup_insert_eq).
  exists w1. split; [exact Hreset|].
  split; [eexists; split; [exact Hself|done]|].
  split; [by eapply invoke_get_system_status_empty|].
  split; [done|]. split; [done|].
  set (new := fresh (dom (objects w1))).
  assert (objects w1 !! new = None) as Hnew by apply not_elem_of_dom_1, is_fresh.
  set (wn := set_cls_instance (Some new) (new_object new w1)).
  assert (objects wn !! new
          = Some {| obj_initialized := false; obj_components := ∅;
                    obj_system_status := HEALTHY |}) as Hobj
    by (simpl; apply lookup_insert_eq).
  set (blank := {| obj_initialized := false; obj_components := ∅;
                   obj_system_status := HEALTHY |}) in Hobj.
  set (w2 := set_health_monitor (Some new)
               (leave new (init_attributes (enter blank wn)) wn)).
  assert (get_health_monitor w1 = (Ok new, w2)) as Hget.
  { assert (__new__ w1 = (Ok new, wn)) as Hnew_run by reflexivity.
    assert (SystemHealthMonitor w1
            = (Ok new, leave new (init_attributes (enter blank wn)) wn)) as Hcons.
    { unfold SystemHealthMonitor. rewrite (bind_ok _ _ _ _ _ Hnew_run).
      by rewrite (bind_ok _ _ _ _ _
                    (invoke_run new __init__ wn _ _ _ Hobj eq_refl)). }
    unfold get_health_monitor.
    rewrite (bind_ok _ _ _ _ _ (eq_refl : gets _health_monitor w1 = (Ok None, w1))).
    by rewrite (bind_ok _ _ _ _ _ Hcons). }
  assert (objects w2 !! new
          = Some {| obj_initialized := true; obj_components := ∅;
                    obj_system_status := HEALTHY |}) as Hinit
    by (simpl; apply lookup_insert_eq).
  eexists new, w2, _. split; [exact Hget|]. split; [exact Hnew|].
  split; [intros ->; congruence|].
  split; [done|]. split; [done|]. split; [exact Hinit|].
  split; [done|]. split; [done|]. split; [done|].
  by eapply invoke_get_system_status_empty.
Qed.

Lemma C8_reset_witness :
  (obj_components <$> objects w_used !! 1%positive)
  = Some {[ "db" := new_ComponentHealth "db" HEALTHY noon None 1%positive ]}
  ∧ ∃ w1 new w2 i,
      reset 1%positive w_used = (Ok tt, w1)
      ∧ reports_empty_healthy 1%positive (Raise (Exception "down")) w1
      ∧ get_health_monitor w1 = (Ok new, w2)
      ∧ new ≠ 1%positive
      ∧ objects w2 !! new = Some i
      ∧ obj_components i = ∅.
Proof.
  assert (objects w_used !! 1%positive
          = Some {| obj_initialized := true;
                    obj_components :=
                      {[ "db" := new_ComponentHealth "db" HEALTHY noon None 1%positive ]};
                    obj_system_status := HEALTHY |}) as Ho
    by (vm_compute; reflexivity).
  split; [by rewrite Ho|].
  destruct (C8_reset w_used 1%positive _ (Raise (Exception "down")) Ho)
    as (w1 & Hreset & _ & Hrep & _ & _ & new & w2 & i & Hget & _ & Hne & _ & _ & Hi & _ & Hc & _).
  exists w1, new, w2, i.
  split; [exact Hreset|]. split; [exact Hrep|]. split; [exact Hget|].
  split; [exact Hne|]. split; [exact Hi|exact Hc].
Defined.

(** ** The audit record *)

Lemma string_mem_app c s1 s2 :
  string_mem c (s1 +:+ s2) = string_mem c s1 || string_mem c s2.
Proof.
  induction s1 as [|c' s1 IH]; [done|].
  simpl. by destruct (Ascii.eqb c c').
Qed.

Lemma prefix_single c c' s :
  String.prefix (String c EmptyString) (String c' s) = Ascii.eqb c c'.
Proof.
  simpl. destruct (ascii_dec c c') as [->|Hne].
  - rewrite Ascii.eqb_refl. by destruct s.
  - symmetry. by apply Ascii.eqb_neq.
Qed.

(** Replacing a character takes it out of the string, when the
    replacement does not hold it. *)
Lemma replace_removes c new s :
  string_mem c new = false →
  string_mem c (replace (String c EmptyString) new s) = false.
Proof.
  intros Hnew. unfold replace. induction s as [|c' s IH]; [done|].
  cbn [replace_from]. rewrite prefix_single.
  destruct (Ascii.eqb c c') eqn:Hc.
  - cbn [String.length Nat.sub]. by rewrite string_mem_app, Hnew, IH.
  - cbn [string_mem]. by rewrite Hc.
Qed.

(** It brings in no character that neither the string nor the
    replacement holds. *)
Lemma replace_keeps_absent c c0 new s :
  string_mem c0 new = false → string_mem c0 s = false →
  string_mem c0 (replace (String c EmptyString) new s) = false.
Proof.
  intros Hnew. unfold replace. induction s as [|c' s IH]; [done|].
  cbn [replace_from string_mem]. rewrite prefix_single.
  destruct (Ascii.eqb c0 c') eqn:Hc0; [done|]. intros Hs.
  destruct (Ascii.eqb c c') eqn:Hc.
  - cbn [String.length Nat.sub]. by rewrite string_mem_app, Hnew, IH.
  - cbn [string_mem]. by rewrite Hc0, IH.
Qed.

(** The part of the claim on the details: whatever the dictionary holds,
    [details_str] has no newline and no carriage return. *)
Lemma details_str_single_line (details : option Details) :
  string_mem newline (details_str details) = false
  ∧ string_mem carriage_return (details_str details) = false.
Proof.
  destruct details as [[|kv d]|]; try done.
  unfold details_str. split.
  - apply replace_keeps_absent; [done|]. by apply replace_removes.
  - by apply replace_removes.
Qed.

(** The order of the fields in the record written. *)
Lemma log_event_fields t event_type user ip resource action details level :
  INFO ≤ level →
  log_event t event_type user ip resource action details level
  = Some (join " - " [formatTime t; getLevelName level; AuditEventType_value event_type;
                      user; ip; resource; action; details_str details]).
Proof.
  intros Hlevel. unfold log_event.
  rewrite (proj2 (Z.leb_le _ _) Hlevel). reflexivity.
Qed.

(** C9.  The claim breaks on the fields other than the details: a failed
    login whose user name holds a newline is written as a record that
    spans two lines, the user name being put in the record as it comes,
    while the newline of the details is replaced. *)
Theorem C9_record_spans_lines :
  ∃ line,
    log_auth_failure noon (String "a" (String newline "b")) "10.0.0.1"
      (String "x" (String newline "y"))
    = Some line
    ∧ count_char newline line = 1%nat
    ∧ line = join " - " ["2026-01-01 12:00:00"; "WARNING"; "auth_failure";
                         String "a" (String newline "b"); "10.0.0.1";
                         "authentication"; "login_attempt"; "{'reason': 'x\ny'}"].
Proof. eexists. split; [vm_compute; reflexivity|]. split; vm_compute; reflexivity. Qed.

(** * Further properties of the registry *)

(** ** The aggregate after each marking method *)

Lemma some_degrading_insert (m : gmap string ComponentHealth) n h :
  some_degrading (<[n := h]> m)
  ↔ degrading h ∨ ∃ k c, k ≠ n ∧ m !! k = Some c ∧ degrading c.
Proof.
  split.
  - intros (k & c & Hk & Hd). destruct (decide (n = k)) as [->|Hne].
    + rewrite lookup_insert_eq in Hk. injection Hk as <-. by left.
    + rewrite lookup_insert_ne in Hk by done. right. exists k, c. by repeat split.
  - intros [Hd|(k & c & Hne & Hk & Hd)].
    + exists n, h. by rewrite lookup_insert_eq.
    + exists k, c. by rewrite lookup_insert_ne.
Qed.

Lemma aggregate_of_insert (m : gmap string ComponentHealth) n h st :
  aggregate_of (<[n := h]> m) st →
  (st = DEGRADED ↔ some_degrading (<[n := h]> m))
  ∧ (st = HEALTHY ↔ ¬ some_degrading (<[n := h]> m)).
Proof.
  intros [[He _]|[(_ & Hd & ->)|(_ & Hd & ->)]].
  - by apply insert_non_empty in He.
  - split; [tauto|]. split; [done|tauto].
  - split; [|tauto]. split; [done|tauto].
Qed.

(** X1.  [mark_degraded] never raises; afterwards the component's record
    has status Degraded, a [warning_count] one above what it was (1 for a
    new name) and the [error_count] it had, the supplied message as
    [last_error], both times read from the clock during the call, the
    [fallback_active] flag that was passed, and the supplied metadata
    merged into its metadata; and the stored aggregate is Degraded. *)
Theorem X1_mark_degraded (n : string) (e : option string) (f : bool)
    (md : option loc) (s : St) :
  ∃ s' c',
    mark_degraded n e f md s = (Ok tt, s')
    ∧ _components s' !! n = Some c'
    ∧ status c' = DEGRADED
    ∧ warning_count c' = default 0 (warning_count <$> _components s !! n) + 1
    ∧ error_count c' = default 0 (error_count <$> _components s !! n)
    ∧ last_error c' = e
    ∧ fallback_active c' = f
    ∧ (∃ k, (ticks s ≤ k < ticks s')%nat ∧ last_error_time c' = Some (clock s k))
    ∧ (∃ k, (ticks s ≤ k < ticks s')%nat ∧ last_updated c' = clock s k)
    ∧ lookup_dict (store s') (metadata c') = arg_dict (store s) md ∪ prior_metadata s n
    ∧ _system_status s' = DEGRADED.
Proof.
  destruct (mark_degraded_run n e f md s) as (st & Hrun & Hag). simpl in Hrun.
  eexists _, _. split; [exact Hrun|].
  split; [simpl; apply lookup_insert_eq|].
  pose proof (ensured_ticks n md s) as Hticks.
  split; [done|].
  split. { simpl. unfold ensured_record. by destruct (_components s !! n). }
  split. { simpl. unfold ensured_record. by destruct (_components s !! n). }
  split; [done|]. split; [done|].
  split.
  { exists (ticks (ensured n md s) + 0)%nat. split; [|done].
    change (ticks (set_system_status st ?x)) with (ticks x).
    rewrite marked_ticks. lia. }
  split.
  { exists (ticks (ensured n md s) + 1)%nat. split; [|done].
    change (ticks (set_system_status st ?x)) with (ticks x).
    rewrite marked_ticks. lia. }
  split.
  { change (store (set_system_status st ?x)) with (store x).
    apply (marked_metadata n md 2). }
  simpl. rewrite marked_components in Hag.
  apply aggregate_of_insert in Hag as [Hd _]. apply Hd.
  apply some_degrading_insert. left. by right.
Qed.

(** X2.  What the aggregate is after each marking method, in terms of the
    other components: [mark_failed] and [mark_degraded] always leave
    Degraded; [mark_healthy] leaves Healthy when no other component is
    Failed or Degraded, and Degraded when one is. *)
Theorem X2_aggregate_after_each_mark (n : string) (e : option string) (f : bool)
    (md : option loc) (s : St) :
  _system_status (mark_failed n e md s).2 = DEGRADED
  ∧ _system_status (mark_degraded n e f md s).2 = DEGRADED
  ∧ (_system_status (mark_healthy n md s).2 = HEALTHY
     ↔ ∀ k c, k ≠ n → _components s !! k = Some c → ¬ degrading c)
  ∧ (_system_status (mark_healthy n md s).2 = DEGRADED
     ↔ ∃ k c, k ≠ n ∧ _components s !! k = Some c ∧ degrading c).
Proof.
  split.
  { destruct (mark_failed_run n e md s) as (st & Hrun & Hag). simpl in Hrun.
    rewrite Hrun. simpl. rewrite marked_components_insert in Hag.
    apply aggregate_of_insert in Hag as [Hd _]. apply Hd.
    apply some_degrading_insert. left. by left. }
  split.
  { destruct (mark_degraded_run n e f md s) as (st & Hrun & Hag). simpl in Hrun.
    rewrite Hrun. simpl. rewrite marked_components_insert in Hag.
    apply aggregate_of_insert in Hag as [Hd _]. apply Hd.
    apply some_degrading_insert. left. by right. }
  destruct (mark_healthy_run n md s) as (st & Hrun & Hag). simpl in Hrun.
  rewrite Hrun. simpl. rewrite marked_components_insert in Hag.
  apply aggregate_of_insert in Hag as [Hd Hh].
  rewrite Hd, Hh, some_degrading_insert.
  assert (¬ degrading (healthy_record (ensured_record n md s) (reading n md s 0))) as Hnot
    by (intros [?|?]; discriminate).
  split.
  - split.
    + intros Hno k c Hne Hk Hdeg. apply Hno. right. by exists k, c.
    + intros Hall [?|(k & c & Hne & Hk & Hdeg)]; [done|]. by eapply Hall.
  - split; [intros [?|?]; [done|done]|by right].
Qed.

(** ** The stored aggregate over any sequence of calls *)

Lemma status_ok_step o s : status_ok s → status_ok (exec o s).2.
Proof.
  intros Hok. unfold status_ok.
  destruct (decide (recomputes o = true)) as [Hrec|Hrec].
  { destruct (exec_recomputes o s Hrec) as (st & n & md & k & h' & Hrun & Hag).
    rewrite Hrun. simpl. rewrite marked_components in Hag.
    destruct Hag as [[He _]|[(_ & _ & ->)|(_ & _ & ->)]]; [|by right|by left].
    by apply insert_non_empty in He. }
  destruct o as [n md | n md | n e f md | n e md | n | rm | rm | | |]; simpl;
    try done.
  - by rewrite register_component_run.
  - destruct (_components s !! n) as [c|] eqn:Hc.
    + by rewrite (bind_ok _ _ _ _ _ (get_component_health_present n c s Hc)).
    + by rewrite (bind_ok _ _ _ _ _ (get_component_health_absent n s Hc)).
  - destruct (get_all_health_run rm s) as (l & ? & ? & ? & ? & s' & Hrun & Hg & _).
    rewrite (bind_ok _ _ _ _ _ Hrun). simpl.
    destruct Hg as (_ & _ & -> & _). done.
  - destruct (get_system_status_run rm s)
      as (l & ? & ? & ? & ? & ? & ? & s' & Hrun & Hg & _).
    rewrite (bind_ok _ _ _ _ _ Hrun). simpl.
    destruct Hg as (_ & _ & -> & _). done.
  - by left.
Qed.

Lemma status_ok_run ops s : status_ok s → status_ok (run ops s).
Proof.
  revert s. induction ops as [|o ops IH]; intros s Hok; [done|].
  rewrite run_cons. by apply IH, status_ok_step.
Qed.

(** X3.  Whatever the calls made on a registry since its construction,
    [reset] among them, the stored aggregate is Healthy or Degraded: the
    Unknown of [_update_system_status] is never stored, nor is Failed.
    So exactly one of [is_system_healthy] and [is_system_degraded]
    answers true, and neither changes the state. *)
Theorem X3_aggregate_is_healthy_or_degraded (ops : list op)
    (h : heap) (c : nat → datetime) (t : nat) :
  let s := run ops (fresh_monitor h c t) in
  (_system_status s = HEALTHY ∨ _system_status s = DEGRADED)
  ∧ ∃ b, is_system_healthy s = (Ok b, s) ∧ is_system_degraded s = (Ok (negb b), s).
Proof.
  intros s.
  assert (status_ok s) as Hok by (apply status_ok_run; by left).
  split; [exact Hok|].
  unfold is_system_healthy, is_system_degraded, gets, is_status.
  destruct Hok as [-> | ->]; by eexists.
Qed.

(** ** The recorded names *)

Lemma dom_step o s :
  o ≠ Reset → dom (_components (exec o s).2) = dom (_components s) ∪ touched o.
Proof.
  intros Hreset.
  destruct (exec_effect o s) as (s' & Hrun & Heff). rewrite Hrun. simpl.
  assert (∀ n x, _components s' = <[n := x]> (_components s) →
                 dom (_components s') = dom (_components s) ∪ {[ n ]}) as Hins.
  { intros n x ->. rewrite dom_insert_L. apply (comm_L (∪)). }
  assert (_components s' = _components s →
          dom (_components s') = dom (_components s) ∪ ∅) as Hsame.
  { intros ->. by rewrite (right_id_L ∅ (∪)). }
  destruct o as [n md | n md | n e f md | n e md | n | rm | rm | | |]; simpl.
  - destruct Heff as (x & Hx & _). by eapply Hins.
  - destruct Heff as (x & Hx & _). by eapply Hins.
  - destruct Heff as (x & Hx & _). by eapply Hins.
  - destruct Heff as (x & Hx & _). by eapply Hins.
  - destruct (_components s !! n) as [c|] eqn:Hc.
    + rewrite Heff. apply elem_of_dom_2 in Hc. symmetry.
      rewrite (comm_L (∪)). apply subseteq_union_1_L.
      by apply singleton_subseteq_l.
    + destruct Heff as (x & Hx & _). by eapply Hins.
  - by apply Hsame.
  - by apply Hsame.
  - by apply Hsame.
  - by apply Hsame.
  - done.
Qed.

(** X4.  Over a sequence of calls without [reset], the recorded names are
    those recorded before together with every name passed to
    [register_component], a marking method or [get_component_health]; no
    name is ever dropped, and the total reported is the number of
    distinct names. *)
Theorem X4_recorded_names (ops : list op) (s : St) :
  Forall (λ o, o ≠ Reset) ops →
  dom (_components (run ops s)) = dom (_components s) ∪ ⋃ (touched <$> ops)
  ∧ size (_components (run ops s)) = size (dom (_components s) ∪ ⋃ (touched <$> ops)).
Proof.
  intros Hops.
  assert (dom (_components (run ops s)) = dom (_components s) ∪ ⋃ (touched <$> ops)) as Hdom.
  { revert s. induction Hops as [|o ops Ho _ IH]; intros s.
    - simpl. by rewrite (right_id_L ∅ (∪)).
    - rewrite run_cons, IH, dom_step by done. rewrite fmap_cons. simpl.
      by rewrite (assoc_L (∪)). }
  split; [exact Hdom|]. by rewrite <- Hdom, size_dom.
Qed.

Lemma X4_recorded_names_witness :
  let ops := [MarkFailed "db" None None; GetComponentHealth "cache";
              RegisterComponent "db" None; GetAllHealth (Raise (Exception "down"))] in
  Forall (λ o, o ≠ Reset) ops
  ∧ size (_components (run ops s0)) = 2%nat.
Proof.
  intros ops.
  assert (Forall (λ o, o ≠ Reset) ops) as Hops by (repeat constructor; discriminate).
  split; [exact Hops|].
  destruct (X4_recorded_names ops s0 Hops) as [_ Hsize].
  rewrite Hsize. vm_compute. reflexivity.
Defined.

(** X5.  [get_component_health] is idempotent: it returns the stored
    record, creating it on the first call for a new name, and a second
    call returns the same record and changes nothing, not even the clock
    reading count. *)
Theorem X5_get_component_health_idempotent (n : string) (s : St) :
  ∃ c s1,
    get_component_health n s = (Ok c, s1)
    ∧ _components s1 !! n = Some c
    ∧ get_component_health n s1 = (Ok c, s1)
    ∧ (is_Some (_components s !! n) → s1 = s).
Proof.
  destruct (_components s !! n) as [c|] eqn:Hc.
  - exists c, s. rewrite (get_component_health_present n c s Hc). by repeat split.
  - eexists _, _. rewrite (get_component_health_absent n s Hc).
    split; [done|].
    assert (_components (auto_registered n s) !! n
            = Some (new_ComponentHealth n UNKNOWN (clock s (ticks s)) None
                      (fresh (dom (store s))))) as Hc'
      by (simpl; apply lookup_insert_eq).
    split; [exact Hc'|].
    split; [by apply get_component_health_present|].
    by intros [? ?].
Qed.

(** ** The records of the other names *)

Lemma exec_lookup_other o s k :
  o ≠ Reset → k ∉ touched o →
  _components (exec o s).2 !! k = _components s !! k.
Proof.
  intros Hreset Hk.
  destruct (exec_effect o s) as (s' & Hrun & Heff). rewrite Hrun. simpl.
  assert (∀ n x, k ∉ ({[ n ]} : gset string) →
                 _components s' = <[n := x]> (_components s) →
                 _components s' !! k = _components s !! k) as Hins.
  { intros n x Hn ->. apply lookup_insert_ne. intros ->.
    by apply Hn, elem_of_singleton. }
  destruct o as [n md | n md | n e f md | n e md | n | rm | rm | | |];
    simpl in Hk; try (by rewrite Heff); try done.
  - destruct Heff as (x & Hx & _). by eapply Hins.
  - destruct Heff as (x & Hx & _). by eapply Hins.
  - destruct Heff as (x & Hx & _). by eapply Hins.
  - destruct Heff as (x & Hx & _). by eapply Hins.
  - destruct (_components s !! n) as [c|] eqn:Hc; [by rewrite Heff|].
    destruct Heff as (x & Hx & _). by eapply Hins.
Qed.

Lemma ensured_store_lookup n md s l :
  lookup_dict (store (ensured n md s)) l = lookup_dict (store s) l.
Proof.
  unfold ensured. destruct (_components s !! n); [done|].
  simpl. apply or_empty_lookup.
Qed.

Lemma ensured_arg_dict n md s :
  arg_dict (store (ensured n md s)) md = arg_dict (store s) md.
Proof. destruct md as [l|]; [apply ensured_store_lookup|done]. Qed.

(** The contents of every dictionary object after a marking method. *)
Lemma marked_lookup_dict n md k h' s l :
  lookup_dict (store (marked n md k h' s)) l
  = if dict_truthy (arg_dict (store s) md)
    then if decide (metadata (ensured_record n md s) = l)
         then arg_dict (store s) md ∪ lookup_dict (store s) l
         else lookup_dict (store s) l
    else lookup_dict (store s) l.
Proof.
  rewrite marked_store. unfold merged. rewrite ensured_arg_dict.
  destruct (dict_truthy _); [|apply ensured_store_lookup].
  destruct (decide _) as [<-|Hne].
  - by rewrite lookup_dict_insert_eq, ensured_store_lookup.
  - rewrite lookup_dict_insert_ne by done. apply ensured_store_lookup.
Qed.

(** The contents of a dictionary object that exists, after any call but
    [reset]: the entries of the update laid over them if the call updates
    that object, and what they were otherwise. *)
Lemma exec_lookup_dict o s l :
  o ≠ Reset → is_Some (store s !! l) →
  lookup_dict (store (exec o s).2) l
  = match updates o s with
    | Some (l', d) =>
        if decide (l' = l) then d ∪ lookup_dict (store s) l
        else lookup_dict (store s) l
    | None => lookup_dict (store s) l
    end.
Proof.
  intros Hreset Hl.
  destruct o as [n md | n md | n e f md | n e md | n | rm | rm | | |];
    simpl; try done.
  - rewrite register_component_run. simpl. apply or_empty_lookup.
  - destruct (mark_healthy_run n md s) as (st & Hrun & _). simpl in Hrun.
    rewrite Hrun. cbn [snd].
    change (store (set_system_status st ?x)) with (store x).
    rewrite marked_lookup_dict. by destruct (dict_truthy _).
  - destruct (mark_degraded_run n e f md s) as (st & Hrun & _). simpl in Hrun.
    rewrite Hrun. cbn [snd].
    change (store (set_system_status st ?x)) with (store x).
    rewrite marked_lookup_dict. by destruct (dict_truthy _).
  - destruct (mark_failed_run n e md s) as (st & Hrun & _). simpl in Hrun.
    rewrite Hrun. cbn [snd].
    change (store (set_system_status st ?x)) with (store x).
    rewrite marked_lookup_dict. by destruct (dict_truthy _).
  - destruct (_components s !! n) as [c|] eqn:Hc.
    + by rewrite (bind_ok _ _ _ _ _ (get_component_health_present n c s Hc)).
    + rewrite (bind_ok _ _ _ _ _ (get_component_health_absent n s Hc)).
      simpl. apply lookup_dict_alloc_empty.
  - destruct (get_all_health_run rm s) as (l0 & ? & ? & ? & ? & s' & Hrun & Hg & _).
    rewrite (bind_ok _ _ _ _ _ Hrun). simpl. by apply grows_lookup_dict.
  - destruct (get_system_status_run rm s)
      as (l0 & ? & ? & ? & ? & ? & ? & s' & Hrun & Hg & _).
    rewrite (bind_ok _ _ _ _ _ Hrun). simpl. by apply grows_lookup_dict.
Qed.

Lemma stored_metadata_records s n :
  stored_metadata s n = snd <$> stored_records s !! n.
Proof.
  unfold stored_metadata, stored_records. rewrite lookup_fmap.
  by destruct (_components s !! n).
Qed.

(** X20.  A call other than [reset] leaves the record kept under every
    name it was not given as it was, field by field, the reference to its
    metadata dictionary included.  The contents of that dictionary stay
    too unless it is the very object the call updates in place, that is,
    unless the component shares its metadata dictionary with the
    component a marking method is given together with metadata: then the
    entries supplied are laid over the other component's metadata as
    well. *)
Theorem X20_records_of_other_names (o : op) (s : St) (k : string) (c : ComponentHealth) :
  o ≠ Reset → k ∉ touched o → wf_store s → _components s !! k = Some c →
  let s' := (exec o s).2 in
  _components s' !! k = Some c
  ∧ ((∀ l d, updates o s = Some (l, d) → l ≠ metadata c) →
     stored_records s' !! k = stored_records s !! k)
  ∧ (∀ l d, updates o s = Some (l, d) → l = metadata c →
     stored_records s' !! k = Some (c, d ∪ lookup_dict (store s) (metadata c))).
Proof.
  intros Hreset Hk Hwf Hc s'.
  assert (_components s' !! k = Some c) as Hc'
    by (unfold s'; by rewrite exec_lookup_other).
  pose proof (exec_lookup_dict o s (metadata c) Hreset (Hwf k c Hc)) as Hd.
  fold s' in Hd. unfold stored_records. rewrite !lookup_fmap, Hc', Hc. simpl.
  split; [done|]. split.
  - intros Hne. f_equal. f_equal. rewrite Hd.
    destruct (updates o s) as [[l d]|]; [|done].
    destruct (decide (l = metadata c)) as [He|]; [|done].
    by destruct (Hne l d eq_refl).
  - intros l d Hu He. f_equal. f_equal. rewrite Hd, Hu.
    by destruct (decide (l = metadata c)).
Qed.

(** Two components registered with one and the same dictionary of the
    caller (object 1), and a third with none: marking the first healthy
    with the metadata [{"b": 2}] (object 2) changes the metadata of the
    second, and not the third. *)
Lemma X20_records_of_other_names_witness :
  let callers : heap :=
    {[ 1%positive := {[ "a" := VInt 1 ]}; 2%positive := {[ "b" := VInt 2 ]} ]} in
  let s := run [RegisterComponent "x" (Some 1%positive);
                RegisterComponent "y" (Some 1%positive);
                RegisterComponent "z" None]
               (fresh_monitor callers (λ _, noon) 0) in
  let o := MarkHealthy "x" (Some 2%positive) in
  (o ≠ Reset) ∧ ("y" ∉ touched o) ∧ ("z" ∉ touched o) ∧ wf_store s
  ∧ stored_metadata s "y" = Some {[ "a" := VInt 1 ]}
  ∧ stored_metadata (exec o s).2 "y" = Some {[ "a" := VInt 1; "b" := VInt 2 ]}
  ∧ stored_records (exec o s).2 !! "z" = stored_records s !! "z".
Proof.
  intros callers s o.
  assert (o ≠ Reset) as Hreset by discriminate.
  assert ("y" ∉ touched o) as Hy.
  { simpl. intros Hin. by apply elem_of_singleton in Hin. }
  assert ("z" ∉ touched o) as Hz.
  { simpl. intros Hin. by apply elem_of_singleton in Hin. }
  assert (wf_store s) as Hwf by apply wf_store_run, wf_store_fresh.
  assert (updates o s = Some (1%positive, {[ "b" := VInt 2 ]})) as Hu
    by (vm_compute; reflexivity).
  split; [exact Hreset|]. split; [exact Hy|]. split; [exact Hz|].
  split; [exact Hwf|]. split; [vm_compute; reflexivity|]. split.
  - destruct (X20_records_of_other_names o s "y"
                (new_ComponentHealth "y" HEALTHY noon None 1%positive)
                Hreset Hy Hwf) as (Hrec & _ & Hshared).
    { vm_compute. reflexivity. }
    rewrite stored_metadata_records, (Hshared _ _ Hu eq_refl).
    vm_compute. reflexivity.
  - destruct (X20_records_of_other_names o s "z"
                (new_ComponentHealth "z" HEALTHY noon None 3%positive)
                Hreset Hz Hwf) as (_ & Hown & _).
    { vm_compute. reflexivity. }
    apply Hown. intros l d Hu'. rewrite Hu in Hu'. injection Hu' as <- _.
    discriminate.
Defined.

(** ** The counts of [get_system_status] *)

Lemma count_if_cons {A} (p : A → bool) x (l : list A) :
  count_if p (x :: l) = (if p x then 1 else 0) + count_if p l.
Proof.
  unfold count_if. destruct (p x) eqn:Hp.
  - by rewrite filter_cons_True.
  - rewrite filter_cons_False; [done|]. by rewrite Hp.
Qed.

Lemma count_if_partition (l : list ComponentHealth) :
  count_if (λ c, is_status HEALTHY (status c)) l
  + count_if (λ c, is_status DEGRADED (status c)) l
  + count_if (λ c, is_status FAILED (status c)) l
  + count_if (λ c, is_status UNKNOWN (status c)) l
  = Z.of_nat (length l).
Proof.
  induction l as [|c l IH]; [done|].
  rewrite !count_if_cons. cbn [length]. unfold is_status at 1 3 5 7.
  destruct (status c); simpl; lia.
Qed.

(** X6.  In the dictionary [get_system_status] returns, the healthy,
    degraded and failed counts add up to the total less the number of
    components of status Unknown, which has no count of its own; they add
    up to the total exactly when no recorded component is Unknown. *)
Theorem X6_counts_add_up (rm : Res ResourceMonitor) (s : St) :
  ∃ l s' counts nh nd nf nt,
    get_system_status rm s = (Ok l, s')
    ∧ lookup_dict (store s') l !! "component_counts" = Some (VRef counts)
    ∧ lookup_dict (store s') counts !! "healthy" = Some (VInt nh)
    ∧ lookup_dict (store s') counts !! "degraded" = Some (VInt nd)
    ∧ lookup_dict (store s') counts !! "failed" = Some (VInt nf)
    ∧ lookup_dict (store s') counts !! "total" = Some (VInt nt)
    ∧ nh + nd + nf + count_status UNKNOWN (_components s) = nt
    ∧ 0 ≤ nh ∧ 0 ≤ nd ∧ 0 ≤ nf
    ∧ (nh + nd + nf = nt
       ↔ ∀ n c, _components s !! n = Some c → status c ≠ UNKNOWN).
Proof.
  destruct (get_system_status_run rm s)
    as (l & counts & all & items & d & t & md & s' & Hrun & _ & _ & Hl & Hc & _).
  eexists l, s', counts, _, _, _, _. split; [exact Hrun|].
  unfold lookup_dict. rewrite Hl, Hc. simpl.
  split; [reflexivity|]. split; [reflexivity|]. split; [reflexivity|].
  split; [reflexivity|]. split; [reflexivity|].
  pose proof (count_if_partition (values (_components s))) as Hpart.
  assert (length (values (_components s)) = size (_components s)) as Hlen.
  { unfold values. rewrite length_fmap. apply length_map_to_list. }
  rewrite Hlen in Hpart. rewrite !count_if_size in *. fold (count_status UNKNOWN (_components s)) in *.
  split; [exact Hpart|].
  split; [lia|]. split; [lia|]. split; [lia|].
  unfold count_status in *.
  split.
  - intros Hsum n c Hn Hst.
    assert (size (filter (λ kv : string * ComponentHealth, status kv.2 = UNKNOWN)
                   (_components s)) = 0%nat) as Hz by lia.
    apply map_size_empty_iff in Hz.
    assert (filter (λ kv : string * ComponentHealth, status kv.2 = UNKNOWN)
              (_components s) !! n = Some c) as Hin
      by (by apply map_lookup_filter_Some).
    rewrite Hz, lookup_empty in Hin. done.
  - intros Hall.
    assert (filter (λ kv : string * ComponentHealth, status kv.2 = UNKNOWN)
              (_components s) = ∅) as Hz.
    { apply map_empty_filter. intros n c Hn Hst. by eapply Hall. }
    rewrite Hz, map_size_empty in Hpart. lia.
Qed.

(** ** What [get_all_health] shows of each component *)

Lemma get_all_health_entry rm s n c :
  _components s !! n = Some c → n ≠ "system_resources" →
  ∃ l s' outer li md,
    get_all_health rm s = (Ok l, s')
    ∧ store s' !! l = Some outer
    ∧ outer !! n = Some (VRef li)
    ∧ store s' !! li = Some (record_dict c md).
Proof.
  intros Hc Hne.
  destruct (get_all_health_run rm s)
    as (l & items & d & t & md & s' & Hrun & Hg & Hl & Hl' & Hitems & Hd & Hd').
  assert (NoDup items.*1) as Hnd.
  { rewrite (Forall2_snapshot_names _ _ _ _ Hitems). apply NoDup_fst_map_to_list. }
  apply elem_of_map_to_list, list_elem_of_lookup in Hc as [i Hi].
  destruct (Forall2_lookup_l _ _ _ _ _ Hitems Hi)
    as ([n' v] & Hi' & Hn' & li & mdi & Hvi & Hli & Hli' & _).
  simpl in Hn', Hvi, Hli'. subst n' v.
  exists l, s', (<["system_resources" := VRef d]> (list_to_map items)), li, mdi.
  split; [exact Hrun|]. split; [exact Hl'|]. split; [|exact Hli'].
  rewrite lookup_insert_ne by done.
  apply elem_of_list_to_map_1; [done|]. eapply list_elem_of_lookup_2, Hi'.
Qed.

(** X7.  For every recorded component other than [system_resources],
    the entry of [get_all_health] under its name has nine fields and shows
    the stored record: its name, the value of its status, its two
    counters, its last error ([None] when there is none), its fallback
    flag and its times in ISO format. *)
Theorem X7_snapshot_shows_record (rm : Res ResourceMonitor) (s : St)
    (n : string) (c : ComponentHealth) :
  _components s !! n = Some c →
  n ≠ "system_resources" →
  ∃ l s' li entry,
    get_all_health rm s = (Ok l, s')
    ∧ lookup_dict (store s') l !! n = Some (VRef li)
    ∧ store s' !! li = Some entry
    ∧ size entry = 9%nat
    ∧ entry !! "name" = Some (VStr (name c))
    ∧ entry !! "status" = Some (VStr (HealthStatus_value (status c)))
    ∧ entry !! "error_count" = Some (VInt (error_count c))
    ∧ entry !! "warning_count" = Some (VInt (warning_count c))
    ∧ entry !! "last_error" = Some (opt_str (last_error c))
    ∧ entry !! "fallback_active" = Some (VBool (fallback_active c))
    ∧ entry !! "last_updated" = Some (VStr (isoformat (last_updated c)))
    ∧ entry !! "last_error_time" = Some (opt_str (isoformat <$> last_error_time c)).
Proof.
  intros Hc Hne.
  destruct (get_all_health_entry rm s n c Hc Hne)
    as (l & s' & outer & li & md & Hrun & Hl & Hli & Hentry).
  exists l, s', li, (record_dict c md).
  split; [exact Hrun|]. unfold lookup_dict. rewrite Hl. simpl.
  split; [exact Hli|]. split; [exact Hentry|].
  repeat split; reflexivity.
Qed.

Lemma X7_snapshot_shows_record_witness :
  let s := run [MarkFailed "db" (Some "timeout") None] s0 in
  is_Some (_components s !! "db")
  ∧ ∃ l s' li entry,
      get_all_health (Raise (Exception "down")) s = (Ok l, s')
      ∧ lookup_dict (store s') l !! "db" = Some (VRef li)
      ∧ store s' !! li = Some entry
      ∧ entry !! "status" = Some (VStr "failed")
      ∧ entry !! "error_count" = Some (VInt 1)
      ∧ entry !! "last_error" = Some (VStr "timeout").
Proof.
  intros s.
  assert (_components s !! "db"
          = Some (failed_record (new_ComponentHealth "db" HEALTHY noon None 1%positive)
                    (Some "timeout") noon noon)) as Hc
    by (vm_compute; reflexivity).
  split; [by rewrite Hc|].
  destruct (X7_snapshot_shows_record (Raise (Exception "down")) s "db" _ Hc ltac:(done))
    as (l & s' & li & entry & Hrun & Hl & Hli & _ & _ & Hst & He & _ & Hle & _).
  exists l, s', li, entry. by repeat split.
Defined.

(** X8.  A component recorded under the name [system_resources] is
    hidden by the resource monitor's entry: what [get_all_health] shows
    under that name is the entry made for the resource monitor, with zero
    counters and the monitor's status, whatever the stored record holds,
    and the dictionary returned has as many entries as there are recorded
    components. *)
Theorem X8_system_resources_is_shadowed (rm : Res ResourceMonitor) (s : St)
    (c : ComponentHealth) :
  _components s !! "system_resources" = Some c →
  ∃ l s' li entry,
    get_all_health rm s = (Ok l, s')
    ∧ size (lookup_dict (store s') l) = size (_components s)
    ∧ lookup_dict (store s') l !! "system_resources" = Some (VRef li)
    ∧ store s' !! li = Some entry
    ∧ entry !! "status" = Some (VStr (HealthStatus_value (resource_entry_status rm)))
    ∧ entry !! "last_error" = Some (opt_str (resource_entry_error rm))
    ∧ entry !! "error_count" = Some (VInt 0)
    ∧ entry !! "warning_count" = Some (VInt 0)
    ∧ entry !! "fallback_active" = Some (VBool false).
Proof.
  intros Hc.
  destruct (get_all_health_run rm s)
    as (l & items & d & t & md & s' & Hrun & Hg & Hl & Hl' & Hitems & Hd & Hd').
  assert (NoDup items.*1) as Hnd.
  { rewrite (Forall2_snapshot_names _ _ _ _ Hitems). apply NoDup_fst_map_to_list. }
  eexists l, s', d, _. split; [exact Hrun|].
  unfold lookup_dict. rewrite Hl'. simpl.
  split.
  { assert (is_Some ((list_to_map items : dict) !! "system_resources")) as [v Hv].
    { destruct ((list_to_map items : dict) !! "system_resources") eqn:Hv; [eauto|].
      apply not_elem_of_list_to_map in Hv.
      rewrite (Forall2_snapshot_names _ _ _ _ Hitems) in Hv.
      exfalso. apply Hv. apply list_elem_of_fmap. exists ("system_resources", c).
      split; [done|]. by apply elem_of_map_to_list. }
    rewrite map_size_insert_Some by eauto.
    rewrite map_size_list_to_map by done.
    rewrite <- (length_fmap fst), (Forall2_snapshot_names _ _ _ _ Hitems), length_fmap.
    apply length_map_to_list. }
  split; [apply lookup_insert_eq|]. split; [exact Hd'|].
  repeat split; reflexivity.
Qed.

Lemma X8_system_resources_is_shadowed_witness :
  let s := run [MarkFailed "system_resources" (Some "disk") None] s0 in
  (status <$> _components s !! "system_resources") = Some FAILED
  ∧ ∃ l s' li entry,
      get_all_health
        (Ok {| check_resource_health := Ok {[ "overall" := VStr "ok" ]};
               get_current_metrics :=
                 Ok {| cpu_percent := 1; memory_percent := 2;
                       disk_usage_percent := 3; memory_available_mb := 4 |} |}) s
      = (Ok l, s')
      ∧ size (lookup_dict (store s') l) = 1%nat
      ∧ lookup_dict (store s') l !! "system_resources" = Some (VRef li)
      ∧ store s' !! li = Some entry
      ∧ entry !! "status" = Some (VStr "healthy")
      ∧ entry !! "error_count" = Some (VInt 0).
Proof.
  intros s.
  assert (_components s !! "system_resources"
          = Some (failed_record
                    (new_ComponentHealth "system_resources" HEALTHY noon None 1%positive)
                    (Some "disk") noon noon)) as Hc
    by (vm_compute; reflexivity).
  split; [by rewrite Hc|].
  edestruct (X8_system_resources_is_shadowed) as
    (l & s' & li & entry & Hrun & Hsize & Hl & Hli & Hst & _ & He & _); [exact Hc|].
  exists l, s', li, entry. split; [exact Hrun|].
  split. { rewrite Hsize. vm_compute. reflexivity. }
  split; [exact Hl|]. split; [exact Hli|]. split; [exact Hst|exact He].
Defined.

(** ** The metadata dictionary passed at registration *)

(** X9.  [register_component] keeps the caller's metadata dictionary
    itself when it is not empty, so that a later [mark_healthy] with
    metadata updates the caller's dictionary in place; for an empty
    dictionary it makes a new empty one, which the caller does not hold. *)
Theorem X9_registration_keeps_callers_dict (n : string) (l : loc) (s : St) :
  let s1 := (register_component n (Some l) s).2 in
  ∃ c,
    _components s1 !! n = Some c
    ∧ if dict_truthy (lookup_dict (store s) l)
      then metadata c = l
           ∧ store s1 = store s
           ∧ ∀ md2, lookup_dict (store (mark_healthy n md2 s1).2) l
                    = arg_dict (store s) md2 ∪ lookup_dict (store s) l
      else store s !! metadata c = None
           ∧ lookup_dict (store s1) (metadata c) = ∅
           ∧ lookup_dict (store s1) l = lookup_dict (store s) l.
Proof.
  intros s1. subst s1. rewrite register_component_run. simpl.
  eexists. split; [apply lookup_insert_eq|]. simpl.
  destruct (dict_truthy (lookup_dict (store s) l)) eqn:Ht.
  - split; [done|]. split; [done|]. intros md2.
    set (s1 := registered n (Some l) s).
    assert (_components s1 !! n
            = Some (new_ComponentHealth n HEALTHY (clock s (ticks s)) None l)) as Hc.
    { unfold s1, registered. simpl. rewrite Ht. apply lookup_insert_eq. }
    assert (store s1 = store s) as Hstore.
    { unfold s1, registered. simpl. by rewrite Ht. }
    destruct (mark_healthy_run n md2 s1) as (st & Hrun & _). cbv zeta in Hrun.
    pose proof (marked_metadata n md2 1
      (healthy_record (ensured_record n md2 s1) (reading n md2 s1 0)) s1) as Hmeta.
    unfold prior_metadata in Hmeta.
    rewrite (ensured_record_present n md2 s1 _ Hc) in Hmeta, Hrun.
    rewrite Hc, Hstore in Hmeta.
    change (metadata (new_ComponentHealth n HEALTHY (clock s (ticks s)) None l))
      with l in Hmeta.
    rewrite Hrun. cbn [snd].
    change (store (set_system_status st ?x)) with (store x).
    exact Hmeta.
  - split; [apply fresh_None|].
    split; [apply lookup_dict_insert_eq|]. apply lookup_dict_alloc_empty.
Qed.

(** * Further properties of the singleton *)

Lemma ensured_initialized n md s : _initialized (ensured n md s) = _initialized s.
Proof. unfold ensured. by destruct (_components s !! n). Qed.

Lemma marked_initialized n md k h' s :
  _initialized (marked n md k h' s) = _initialized s.
Proof.
  unfold marked. simpl. rewrite <- (ensured_initialized n md s).
  induction k as [|k IH]; [done|]. by simpl.
Qed.

Lemma exec_initialized c s : c ≠ Reset → _initialized (exec c s).2 = _initialized s.
Proof.
  intros Hc.
  destruct c as [n md | n md | n e f md | n e md | n | rm | rm | | |]; simpl; try done.
  - by rewrite register_component_run.
  - destruct (mark_healthy_run n md s) as (st & Hrun & _). cbv zeta in Hrun.
    rewrite Hrun. apply (marked_initialized n md 1).
  - destruct (mark_degraded_run n e f md s) as (st & Hrun & _). cbv zeta in Hrun.
    rewrite Hrun. apply (marked_initialized n md 2).
  - destruct (mark_failed_run n e md s) as (st & Hrun & _). cbv zeta in Hrun.
    rewrite Hrun. apply (marked_initialized n md 2).
  - destruct (_components s !! n) as [c|] eqn:Hn.
    + by rewrite (bind_ok _ _ _ _ _ (get_component_health_present n c s Hn)).
    + by rewrite (bind_ok _ _ _ _ _ (get_component_health_absent n s Hn)).
  - destruct (get_all_health_run rm s) as (l & ? & ? & ? & ? & s' & Hrun & Hg & _).
    rewrite (bind_ok _ _ _ _ _ Hrun). apply Hg.
  - destruct (get_system_status_run rm s)
      as (l & ? & ? & ? & ? & ? & ? & s' & Hrun & Hg & _).
    rewrite (bind_ok _ _ _ _ _ Hrun). apply Hg.
Qed.

Lemma invoke_init_initialized o i w :
  objects w !! o = Some i → obj_initialized i = true →
  invoke o __init__ w = (Ok tt, w).
Proof.
  intros Ho Hi. unfold invoke, __init__. rewrite Ho. simpl. rewrite Hi.
  f_equal. destruct w as [objs ci hm st cl tk], i as [b comps sys].
  simpl in *. subst b. unfold leave. simpl. f_equal. by apply insert_id.
Qed.

(** In a world that keeps [singleton_ok], the constructor gives the
    class's instance when there is one and changes nothing. *)
Lemma SystemHealthMonitor_existing o w :
  singleton_ok w → cls_instance w = Some o →
  SystemHealthMonitor w = (Ok o, w).
Proof.
  intros [_ Hcls] Ho. destruct (Hcls o Ho) as (i & Hi & Hinit).
  unfold SystemHealthMonitor.
  assert (__new__ w = (Ok o, w)) as Hnew.
  { unfold __new__, gets, bind. by rewrite Ho. }
  rewrite (bind_ok _ _ _ _ _ Hnew).
  by rewrite (bind_ok _ _ _ _ _ (invoke_init_initialized o i w Hi Hinit)).
Qed.

(** Without an instance, the constructor makes a new object and
    initialises it. *)
Lemma SystemHealthMonitor_new w :
  cls_instance w = None →
  let o := fresh (dom (objects w)) in
  let blank := {| obj_initialized := false; obj_components := ∅;
                  obj_system_status := HEALTHY |} in
  let wn := set_cls_instance (Some o) (new_object o w) in
  SystemHealthMonitor w = (Ok o, leave o (init_attributes (enter blank wn)) wn).
Proof.
  intros Hcls o blank wn. unfold SystemHealthMonitor.
  assert (__new__ w = (Ok o, wn)) as Hnew.
  { unfold __new__, gets, bind at 1. by rewrite Hcls. }
  rewrite (bind_ok _ _ _ _ _ Hnew).
  assert (objects wn !! o = Some blank) as Hobj by (simpl; apply lookup_insert_eq).
  by rewrite (bind_ok _ _ _ _ _ (invoke_run o __init__ wn _ _ _ Hobj eq_refl)).
Qed.

Lemma singleton_ok_construct w : singleton_ok w → singleton_ok (SystemHealthMonitor w).2.
Proof.
  intros Hok. destruct (cls_instance w) as [o|] eqn:Hcls.
  - by rewrite (SystemHealthMonitor_existing o w Hok Hcls).
  - rewrite (SystemHealthMonitor_new w Hcls). simpl. destruct Hok as [Hg _]. split.
    + simpl. intros o Ho. apply Hg in Ho. congruence.
    + simpl. intros o [= <-]. eexists. by rewrite lookup_insert_eq.
Qed.

Lemma singleton_ok_get w : singleton_ok w → singleton_ok (get_health_monitor w).2.
Proof.
  intros Hok. unfold get_health_monitor, gets, bind at 1.
  destruct (_health_monitor w) as [o|] eqn:Hg; [done|].
  pose proof (singleton_ok_construct w Hok) as Hok'.
  destruct (cls_instance w) as [o|] eqn:Hcls.
  - rewrite (bind_ok _ _ _ _ _ (SystemHealthMonitor_existing o w Hok Hcls)).
    simpl. destruct Hok as [_ Hc]. split; simpl; [by intros ? [= <-]|exact Hc].
  - rewrite (SystemHealthMonitor_new w Hcls) in Hok'.
    rewrite (bind_ok _ _ _ _ _ (SystemHealthMonitor_new w Hcls)).
    simpl in *. destruct Hok' as [_ Hc]. split; simpl; [by intros ? [= <-]|exact Hc].
Qed.

Lemma singleton_ok_invoke o c w :
  c ≠ Reset → singleton_ok w → singleton_ok (invoke o (exec c) w).2.
Proof.
  intros Hc [Hg Hcls]. unfold invoke.
  destruct (objects w !! o) as [i|] eqn:Ho; [|done].
  destruct (exec c (enter i w)) as [r s] eqn:Hrun. simpl.
  split; [exact Hg|]. simpl. intros o' Ho'.
  destruct (Hcls o' Ho') as (i' & Hi' & Hinit).
  destruct (decide (o = o')) as [<-|Hne].
  - rewrite lookup_insert_eq. eexists. split; [done|]. simpl.
    replace s with (exec c (enter i w)).2 by (by rewrite Hrun).
    rewrite (exec_initialized c _ Hc). simpl. congruence.
  - rewrite lookup_insert_ne by done. eauto.
Qed.

Lemma reset_run self o w :
  objects w !! self = Some o →
  reset self w
  = (Ok tt,
     set_health_monitor None
       (set_cls_instance None
          (leave self
             (set_initialized false
                (set_system_status HEALTHY (set_components (λ _, ∅) (enter o w))))
             w))).
Proof.
  intros Ho. unfold reset.
  by rewrite (bind_ok _ _ _ _ _ (invoke_run self reset_locked w o _ _ Ho eq_refl)).
Qed.

Lemma singleton_ok_reset self w : singleton_ok w → singleton_ok (reset self w).2.
Proof.
  intros Hok. destruct (objects w !! self) as [o|] eqn:Ho.
  - rewrite (reset_run self o w Ho). by split.
  - unfold reset, invoke, bind. by rewrite Ho.
Qed.

Lemma singleton_ok_step a w : singleton_ok w → singleton_ok (wexec a w).2.
Proof.
  intros Hok. destruct a as [| | o c]; simpl.
  - pose proof (singleton_ok_get w Hok) as Hok'. unfold bind.
    by destruct (get_health_monitor w) as [[?|?] ?].
  - pose proof (singleton_ok_construct w Hok) as Hok'. unfold bind.
    by destruct (SystemHealthMonitor w) as [[?|?] ?].
  - destruct c; try (by apply singleton_ok_reset);
      (refine (singleton_ok_invoke o _ w _ Hok); discriminate).
Qed.

Lemma singleton_ok_run acts w : singleton_ok w → singleton_ok (wrun acts w).
Proof.
  revert w. induction acts as [|a acts IH]; intros w Hok; [done|].
  simpl. by apply IH, singleton_ok_step.
Qed.

(** X10.  Whatever a process has done with the registry, resets on any
    handle among it, [get_health_monitor()] does not raise and returns an
    initialised instance; asking again returns the same instance and
    changes nothing, and so does calling the constructor
    [SystemHealthMonitor()]: there is one instance until the next reset. *)
Theorem X10_one_instance (acts : list wop) (h : heap) (c : nat → datetime) (t : nat) :
  let w := wrun acts (new_process h c t) in
  ∃ o w1 i,
    get_health_monitor w = (Ok o, w1)
    ∧ objects w1 !! o = Some i
    ∧ obj_initialized i = true
    ∧ get_health_monitor w1 = (Ok o, w1)
    ∧ SystemHealthMonitor w1 = (Ok o, w1).
Proof.
  intros w.
  assert (singleton_ok w) as Hok.
  { apply singleton_ok_run. split; simpl; intros; discriminate. }
  pose proof (singleton_ok_get w Hok) as Hok1.
  destruct (get_health_monitor w) as [r w1] eqn:Hget. simpl in Hok1.
  assert (∃ o, r = Ok o ∧ _health_monitor w1 = Some o) as (o & -> & Hg).
  { unfold get_health_monitor, gets, bind at 1 in Hget.
    destruct (_health_monitor w) as [o|] eqn:Hg.
    - injection Hget as <- <-. eauto.
    - destruct (cls_instance w) as [o|] eqn:Hcls.
      + rewrite (bind_ok _ _ _ _ _ (SystemHealthMonitor_existing o w Hok Hcls)) in Hget.
        injection Hget as <- <-. eauto.
      + rewrite (bind_ok _ _ _ _ _ (SystemHealthMonitor_new w Hcls)) in Hget.
        injection Hget as <- <-. eauto. }
  destruct Hok1 as [Hg1 Hc1].
  destruct (Hc1 o (Hg1 o Hg)) as (i & Hi & Hinit).
  exists o, w1, i. split; [done|]. split; [exact Hi|]. split; [exact Hinit|].
  split.
  - unfold get_health_monitor, gets, bind. by rewrite Hg.
  - apply SystemHealthMonitor_existing; [by split|by apply Hg1].
Qed.

(** X11.  [reset] called on one instance clears the class's instance
    and the module global whichever instance they held, but only the
    records of the instance it is called on: another instance keeps its
    records, and no dictionary object changes. *)
Theorem X11_reset_through_a_stale_handle (w : World) (self other : oid)
    (o i : Instance) :
  objects w !! self = Some o →
  objects w !! other = Some i →
  other ≠ self →
  ∃ w1,
    reset self w = (Ok tt, w1)
    ∧ cls_instance w1 = None
    ∧ _health_monitor w1 = None
    ∧ objects w1 !! other = Some i
    ∧ (obj_components <$> objects w1 !! self) = Some ∅
    ∧ w_store w1 = w_store w.
Proof.
  intros Ho Hi Hne. eexists. split; [by apply reset_run|].
  split; [done|]. split; [done|].
  split; [simpl; by rewrite lookup_insert_ne|].
  split; [simpl; by rewrite lookup_insert_eq|done].
Qed.

Lemma X11_reset_through_a_stale_handle_witness :
  _health_monitor w_stale = Some 2%positive
  ∧ ∃ w1 i,
      reset 1%positive w_stale = (Ok tt, w1)
      ∧ _health_monitor w1 = None
      ∧ objects w1 !! 2%positive = Some i
      ∧ (status <$> obj_components i !! "db") = Some FAILED.
Proof.
  split; [vm_compute; reflexivity|].
  edestruct (X11_reset_through_a_stale_handle w_stale 1%positive 2%positive)
    as (w1 & Hreset & _ & Hg & Hother & _).
  { vm_compute. reflexivity. }
  { vm_compute. reflexivity. }
  { discriminate. }
  eexists w1, _. split; [exact Hreset|]. split; [exact Hg|].
  split; [exact Hother|]. vm_compute. reflexivity.
Defined.

(** * Properties of [get_resource_health] *)

Lemma alloc_run d s :
  alloc d s
  = (Ok (fresh (dom (store s))), set_store (insert (fresh (dom (store s))) d) s).
Proof. reflexivity. Qed.

Ltac solve_grows :=
  lazymatch goal with
  | |- grows ?s ?s => apply grows_refl
  | |- grows ?s (set_store _ ?x) =>
      apply (grows_trans s x); [solve_grows | apply (grows_alloc x)]
  | |- grows ?s (tick ?x) =>
      apply (grows_trans s x); [solve_grows | apply (grows_tick x)]
  | |- _ => assumption
  end.

(** X12.  [get_resource_health] never raises, reads the clock once and
    leaves the registry as it was: no component, no stored status and no
    existing dictionary changes.  When one of the resource monitor's
    calls raises, the dictionary returned has the three fields [status],
    [error] and [timestamp], with status [error] and the text of the
    exception; otherwise it has five fields and its status is the
    monitor's overall verdict, [unknown] when the monitor gives none. *)
Theorem X12_get_resource_health (rm : Res ResourceMonitorDetail) (s : St) :
  ∃ l s' D,
    get_resource_health rm s = (Ok l, s')
    ∧ grows s s'
    ∧ ticks s' = S (ticks s)
    ∧ store s !! l = None
    ∧ store s' !! l = Some D
    ∧ D !! "timestamp" = Some (VStr (isoformat (clock s (ticks s))))
    ∧ match detail_result rm with
      | Raise e =>
          D !! "status" = Some (VStr "error")
          ∧ D !! "error" = Some (VStr (exn_str e))
          ∧ size D = 3%nat
      | Ok rs =>
          D !! "status" = Some (default (VStr "unknown") (rs !! "overall"))
          ∧ D !! "error" = None
          ∧ is_Some (D !! "metrics") ∧ is_Some (D !! "thresholds")
          ∧ is_Some (D !! "component_status")
          ∧ size D = 5%nat
      end.
Proof.
  assert (∀ e s1, grows s s1 → ticks s1 = ticks s → clock s1 (ticks s1) = clock s (ticks s) →
    ∃ l s' D,
      (t ← now;
       alloc ({[ "status" := VStr "error"; "error" := VStr (exn_str e);
                 "timestamp" := VStr (isoformat t) ]} : dict)) s1 = (Ok l, s')
      ∧ grows s s' ∧ ticks s' = S (ticks s) ∧ store s !! l = None
      ∧ store s' !! l = Some D
      ∧ D !! "timestamp" = Some (VStr (isoformat (clock s (ticks s))))
      ∧ D !! "status" = Some (VStr "error")
      ∧ D !! "error" = Some (VStr (exn_str e))
      ∧ size D = 3%nat) as Hhandler.
  { intros e s1 Hg Ht Hclk. eexists _, _, _. split; [reflexivity|].
    split; [eapply grows_trans; [exact Hg|]; solve_grows|].
    split; [simpl; by rewrite Ht|].
    split; [eapply grows_None; [exact Hg|]; eapply grows_None;
            [apply grows_tick|apply (fresh_None (store (tick s1)))]|].
    split; [simpl; apply lookup_insert_eq|].
    rewrite Hclk. by repeat split. }
  unfold get_resource_health, try_except, detail_result.
  destruct rm as [m|e]; [|by apply Hhandler].
  unfold call at 1, bind at 1.
  destruct (check_resource_health (monitor m)) as [rs|e]; [|by apply Hhandler].
  unfold call at 1, bind at 1. rewrite (bind_ok _ _ _ _ _ (alloc_run rs s)).
  set (s1 := set_store (insert (fresh (dom (store s))) rs) s).
  assert (grows s s1) as Hg1 by apply grows_alloc.
  destruct (get_current_metrics (monitor m)) as [metrics|e]; [|by apply Hhandler].
  unfold call at 1, bind at 1.
  destruct (metrics_to_dict m) as [md|e]; [|by apply Hhandler].
  unfold call at 1, bind at 1. rewrite (bind_ok _ _ _ _ _ (alloc_run md s1)).
  set (s2 := set_store (insert (fresh (dom (store s1))) md) s1).
  assert (grows s s2) as Hg2 by (eapply grows_trans; [exact Hg1|apply grows_alloc]).
  destruct (thresholds m) as [th|e] eqn:Hth.
  2:{ assert (∀ f, threshold m f s2 = (Raise e, s2)) as Hraise
        by (intros f; unfold threshold, call, bind; by rewrite Hth).
      rewrite (bind_raise _ _ _ _ _ (Hraise cpu_warning)). by apply Hhandler. }
  assert (∀ f, threshold m f s2 = (Ok (VFloat (f th)), s2)) as Hread
    by (intros f; unfold threshold, call, bind; by rewrite Hth).
  rewrite !(bind_ok _ _ _ _ _ (Hread _)).
  rewrite (bind_ok _ _ _ _ _ (alloc_run _ s2)).
  unfold now at 1, bind at 1. rewrite alloc_run.
  eexists _, _, _. split; [reflexivity|].
  split; [solve_grows|]. split; [done|].
  split.
  { lazymatch goal with
    | |- store s !! fresh (dom (store ?x)) = None =>
        apply (grows_None s x); [solve_grows|apply fresh_None]
    end. }
  split; [simpl; apply lookup_insert_eq|].
  split; [done|].
  split; [done|]. split; [done|].
  split; [by eexists|]. split; [by eexists|]. split; [by eexists|done].
Qed.

(** * Further properties of the audit logger *)

Lemma ctl_neq c x : ctl c = true → ctl x = false → Ascii.eqb c x = false.
Proof.
  intros Hc Hx. destruct (Ascii.eqb_spec c x) as [->|]; [congruence|done].
Qed.

Lemma string_mem_cons_false c x s :
  Ascii.eqb c x = false → string_mem c s = false → string_mem c (String x s) = false.
Proof. intros Hx Hs. simpl. by rewrite Hx. Qed.

Lemma hex_digit_not_ctl k : ctl (hex_digit k) = false.
Proof.
  destruct k as [|p]; [reflexivity|].
  do 5 (try destruct p as [p|p|]); reflexivity.
Qed.

Lemma repr_char_no_ctl q c c0 :
  ctl c0 = true → ctl q = false → string_mem c0 (repr_char q c) = false.
Proof.
  intros Hc0 Hq. unfold repr_char.
  assert (Ascii.eqb c0 "\"%char = false) as Hbs by (by apply ctl_neq).
  destruct (Ascii.eqb c q || Ascii.eqb c "\"%char) eqn:Hquote.
  { apply orb_true_iff in Hquote as [Heq|Heq]; apply Ascii.eqb_eq in Heq; subst c;
      apply string_mem_cons_false; try done; apply string_mem_cons_false; try done.
    by apply ctl_neq. }
  destruct (N_of_ascii c =? 9)%N eqn:H9.
  { apply string_mem_cons_false; [done|]. apply string_mem_cons_false; [|done].
    by apply ctl_neq. }
  destruct (N_of_ascii c =? 10)%N eqn:H10.
  { apply string_mem_cons_false; [done|]. apply string_mem_cons_false; [|done].
    by apply ctl_neq. }
  destruct (N_of_ascii c =? 13)%N eqn:H13.
  { apply string_mem_cons_false; [done|]. apply string_mem_cons_false; [|done].
    by apply ctl_neq. }
  destruct ((N_of_ascii c <? 32)%N || (N_of_ascii c =? 127)%N) eqn:Hctl.
  { apply string_mem_cons_false; [done|].
    apply string_mem_cons_false; [by apply ctl_neq|].
    apply string_mem_cons_false; [apply ctl_neq; [done|apply hex_digit_not_ctl]|].
    apply string_mem_cons_false; [apply ctl_neq; [done|apply hex_digit_not_ctl]|done]. }
  apply string_mem_cons_false; [|done]. by apply ctl_neq.
Qed.

Lemma repr_body_no_ctl q s c0 :
  ctl c0 = true → ctl q = false → string_mem c0 (repr_body q s) = false.
Proof.
  intros Hc0 Hq. induction s as [|c s IH]; [done|].
  simpl. by rewrite string_mem_app, repr_char_no_ctl, IH.
Qed.

Lemma py_repr_no_ctl s c0 : ctl c0 = true → string_mem c0 (py_repr s) = false.
Proof.
  intros Hc0. unfold py_repr.
  set (q := if string_mem "'" s && negb (string_mem dquote s) then dquote else "'"%char).
  assert (ctl q = false) as Hq by (unfold q; by destruct (_ && _)).
  rewrite string_mem_app. apply orb_false_iff. split.
  - apply string_mem_cons_false; [by apply ctl_neq|]. by apply repr_body_no_ctl.
  - apply string_mem_cons_false; [by apply ctl_neq|done].
Qed.

(** ** When the clean-up of the details changes nothing *)

Lemma replace_absent c new s :
  string_mem c s = false → replace (String c EmptyString) new s = s.
Proof.
  unfold replace. induction s as [|c' s IH]; [done|].
  cbn [replace_from string_mem]. rewrite prefix_single.
  destruct (Ascii.eqb c c'); [done|]. intros Hs. by rewrite IH.
Qed.

Lemma string_mem_join c sep l :
  string_mem c sep = false → Forall (λ x, string_mem c x = false) l →
  string_mem c (join sep l) = false.
Proof.
  intros Hsep Hl. induction Hl as [|x l Hx Hl IH]; [done|].
  destruct l as [|y l]; [done|].
  change (join sep (x :: y :: l)) with (x +:+ sep +:+ join sep (y :: l)).
  by rewrite !string_mem_app, Hx, Hsep, IH.
Qed.

Lemma str_details_clean c (d : Details) :
  ctl c = true →
  Forall (λ kv, string_mem c kv.2 = false) d →
  string_mem c (str_details d) = false.
Proof.
  intros Hc Hd. unfold str_details.
  rewrite !string_mem_app.
  assert (string_mem c "{" = false) as -> by (apply string_mem_cons_false; [by apply ctl_neq|done]).
  assert (string_mem c "}" = false) as -> by (apply string_mem_cons_false; [by apply ctl_neq|done]).
  rewrite string_mem_join; [done| |].
  - apply string_mem_cons_false; [by apply ctl_neq|].
    apply string_mem_cons_false; [by apply ctl_neq|done].
  - apply Forall_fmap. eapply Forall_impl; [exact Hd|].
    intros [k v] Hv. change (string_mem c v = false) in Hv.
    change (string_mem c (py_repr k +:+ ": " +:+ v) = false).
    rewrite !string_mem_app, py_repr_no_ctl, Hv by done.
    simpl. rewrite !(ctl_neq c) by done. done.
Qed.

(** X13.  For a details dictionary none of whose values has a line break
    in its [repr] (strings, numbers and booleans never have), the
    [details] field of the record is [str(details)] itself: the two
    [replace] calls change nothing, keys included. *)
Theorem X13_details_unchanged_without_line_breaks (kv : string * string) (d : Details) :
  Forall (λ kv, string_mem newline kv.2 = false
                ∧ string_mem carriage_return kv.2 = false) (kv :: d) →
  details_str (Some (kv :: d)) = str_details (kv :: d).
Proof.
  intros Hd. unfold details_str.
  assert (string_mem newline (str_details (kv :: d)) = false) as Hn.
  { apply str_details_clean; [done|]. eapply Forall_impl; [exact Hd|]. by intros ? [? ?]. }
  assert (string_mem carriage_return (str_details (kv :: d)) = false) as Hr.
  { apply str_details_clean; [done|]. eapply Forall_impl; [exact Hd|]. by intros ? [? ?]. }
  rewrite (replace_absent newline) by done. by apply replace_absent.
Qed.

Lemma X13_details_unchanged_without_line_breaks_witness :
  let d := [("reason", py_repr (String "x" (String newline "y"))); ("attempts", repr_int 3)] in
  Forall (λ kv, string_mem newline kv.2 = false
                ∧ string_mem carriage_return kv.2 = false) d
  ∧ details_str (Some d) = "{'reason': 'x\ny', 'attempts': 3}".
Proof.
  intros d.
  assert (Forall (λ kv, string_mem newline kv.2 = false
                        ∧ string_mem carriage_return kv.2 = false) d) as Hd
    by (repeat constructor).
  split; [exact Hd|]. subst d.
  rewrite (X13_details_unchanged_without_line_breaks _ _ Hd). reflexivity.
Defined.

(** ** Records of one line *)

Ltac clean_literal :=
  repeat (apply string_mem_cons_false; [by apply ctl_neq|]); done.

Lemma pretty_N_char_not_ctl k : ctl (pretty_N_char k) = false.
Proof.
  destruct k as [|p]; [reflexivity|].
  do 5 (try destruct p as [p|p|]); reflexivity.
Qed.

Lemma pretty_N_go_clean c x s :
  ctl c = true → string_mem c s = false → string_mem c (pretty_N_go x s) = false.
Proof.
  intros Hc. revert s. induction (N.lt_wf_0 x) as [x _ IH]; intros s Hs.
  assert (x = 0 ∨ 0 < x)%N as [->|Hx] by lia.
  - by rewrite pretty_N_go_0.
  - rewrite pretty_N_go_step by done. apply IH; [by apply N.div_lt|].
    apply string_mem_cons_false; [|done].
    apply ctl_neq; [done|apply pretty_N_char_not_ctl].
Qed.

Lemma pretty_N_clean c (x : N) : ctl c = true → string_mem c (pretty x) = false.
Proof.
  intros Hc. unfold pretty, pretty_N. destruct (decide (x = 0%N)).
  - clean_literal.
  - by apply pretty_N_go_clean.
Qed.

Lemma pretty_nat_clean c (x : nat) : ctl c = true → string_mem c (pretty x) = false.
Proof. apply pretty_N_clean. Qed.

Lemma pretty_Z_clean c (x : Z) : ctl c = true → string_mem c (pretty x) = false.
Proof.
  intros Hc. destruct x as [|p|p].
  - clean_literal.
  - by apply (pretty_N_clean c (Npos p)).
  - change (pretty (Z.neg p)) with ("-" +:+ pretty (Npos p)).
    rewrite string_mem_app, (pretty_N_clean c (Npos p)) by done.
    rewrite orb_false_r. clean_literal.
Qed.

Lemma zfill_clean c w n : ctl c = true → string_mem c (zfill w n) = false.
Proof.
  intros Hc. unfold zfill.
  assert (∀ k s, string_mem c s = false → string_mem c (zfill_aux k s) = false) as Haux.
  { induction k as [|k IH]; intros s Hs; [done|]. simpl. apply IH.
    apply string_mem_cons_false; [by apply ctl_neq|done]. }
  by apply Haux, pretty_nat_clean.
Qed.

Lemma formatTime_clean c t : ctl c = true → string_mem c (formatTime t) = false.
Proof.
  intros Hc. unfold formatTime.
  rewrite !string_mem_app, !zfill_clean by done. simpl.
  by rewrite !(ctl_neq c) by done.
Qed.

Lemma getLevelName_clean c level : ctl c = true → string_mem c (getLevelName level) = false.
Proof.
  intros Hc. unfold getLevelName.
  repeat (destruct (_ =? _); [clean_literal|]).
  rewrite string_mem_app, pretty_Z_clean by done.
  rewrite orb_false_r. clean_literal.
Qed.

Lemma AuditEventType_value_clean c t :
  ctl c = true → string_mem c (AuditEventType_value t) = false.
Proof. intros Hc. destruct t; clean_literal. Qed.

Lemma format_record_clean c a l e u i r act d :
  ctl c = true →
  string_mem c a = false → string_mem c l = false → string_mem c e = false →
  string_mem c u = false → string_mem c i = false → string_mem c r = false →
  string_mem c act = false → string_mem c d = false →
  string_mem c (format_record a l e u i r act d) = false.
Proof.
  intros Hc Ha Hl He Hu Hi Hr Hact Hd. unfold format_record.
  rewrite !string_mem_app, Ha, Hl, He, Hu, Hi, Hr, Hact, Hd.
  simpl. by rewrite !(ctl_neq c) by done.
Qed.

Lemma log_event_one_line t event_type user ip resource action details level line :
  single_line user → single_line ip → single_line resource → single_line action →
  log_event t event_type user ip resource action details level = Some line →
  single_line line.
Proof.
  intros [Hu Hu'] [Hi Hi'] [Hr Hr'] [Ha Ha'] Hlog.
  unfold log_event in Hlog. destruct (INFO <=? level); [|done].
  injection Hlog as <-.
  destruct (details_str_single_line details) as [Hd Hd'].
  split; apply format_record_clean; try done;
    first [apply formatTime_clean | apply getLevelName_clean
          | apply AuditEventType_value_clean]; done.
Qed.

(** X14.  A record is one line as soon as the caller's [user], [ip],
    [resource] and [action] have no line break: the time, the level name,
    the event type and the details never bring one, at any level and for
    any details. *)
Theorem X14_record_of_one_line (t : datetime) (event_type : AuditEventType)
    (user ip resource action : string) (details : option Details) (level : Z)
    (line : string) :
  single_line user → single_line ip → single_line resource → single_line action →
  log_event t event_type user ip resource action details level = Some line →
  single_line line.
Proof. apply log_event_one_line. Qed.

Lemma X14_record_of_one_line_witness :
  ∃ line,
    log_event noon CONFIG_CHANGE "admin" "10.0.0.1" "configuration" "change"
      (Some [("note", String "a" (String newline "b"))]) INFO = Some line
    ∧ single_line line.
Proof.
  eexists. split; [reflexivity|].
  apply (X14_record_of_one_line noon CONFIG_CHANGE "admin" "10.0.0.1"
           "configuration" "change"
           (Some [("note", String "a" (String newline "b"))]) INFO);
    [split; reflexivity..|reflexivity].
Defined.

(** ** The details of a security violation *)

Lemma details_set_absent (k v : string) (d : Details) :
  k ∉ (d.*1 : list string) → details_set k v d = (d ++ [(k, v)])%list.
Proof.
  induction d as [|[k' v'] d IH]; [done|].
  rewrite fmap_cons, not_elem_of_cons. simpl. intros [Hne Hd].
  rewrite (proj2 (String.eqb_neq k k')) by done. by rewrite IH.
Qed.

Lemma details_merge_head (k0 : string) (d acc : Details) (v : string) :
  NoDup d.*1 → k0 ∉ (acc.*1 : list string) →
  (∀ k : string, k ∈ (d.*1 : list string) → k ∉ (acc.*1 : list string)) →
  details_merge ((k0, v) :: acc) d
  = (k0, default v ((list_to_map d : gmap string string) !! k0))
    :: (acc ++ filter (λ kv, kv.1 ≠ k0) d)%list.
Proof.
  unfold details_merge. revert acc v.
  induction d as [|[k x] d IH]; intros acc v Hnd Hk0 Hdis.
  { simpl. by rewrite app_nil_r. }
  rewrite fmap_cons in Hnd. apply NoDup_cons in Hnd as [Hk Hnd].
  cbn [foldl fst snd details_set]. destruct (String.eqb_spec k k0) as [->|Hne].
  - rewrite IH; [|done|done|].
    + rewrite filter_cons_False by (simpl; tauto).
      simpl. rewrite lookup_insert_eq.
      by rewrite (not_elem_of_list_to_map_1 d k0 Hk).
    + intros k' Hk'. apply Hdis. rewrite fmap_cons. by right.
  - assert (k ∉ (acc.*1 : list string)) as Hkacc
      by (apply Hdis; rewrite fmap_cons; by left).
    rewrite (details_set_absent k x acc Hkacc).
    rewrite IH; [|done| |].
    + rewrite filter_cons_True by done.
      simpl. rewrite lookup_insert_ne by done. by rewrite <- app_assoc.
    + rewrite fmap_app, elem_of_app. intros [?|Hin]; [done|].
      simpl in Hin. apply list_elem_of_singleton in Hin. congruence.
    + intros k' Hk'. rewrite fmap_app, elem_of_app. intros [Hin|Hin].
      * eapply Hdis; [|exact Hin]. rewrite fmap_cons. by right.
      * simpl in Hin. apply list_elem_of_singleton in Hin. by subst k'.
Qed.

(** X15.  In [log_security_violation] the caller's details are laid over
    the [violation_type] argument: the record's details begin with the
    key [violation_type], whose value is the one the caller's details
    give for that key when they have it and the argument otherwise,
    followed by the caller's other entries in their order. *)
Theorem X15_details_override_violation_type (t : datetime)
    (user ip violation_type : string) (d : Details) :
  NoDup d.*1 →
  log_security_violation t user ip violation_type (Some d)
  = log_event t SECURITY_VIOLATION user ip "security" "violation"
      (Some (("violation_type",
              default (py_repr violation_type)
                ((list_to_map d : gmap string string) !! "violation_type"))
             :: filter (λ kv, kv.1 ≠ "violation_type") d))
      ERROR.
Proof.
  intros Hnd. unfold log_security_violation. simpl default.
  rewrite (details_merge_head "violation_type" d [] _ Hnd); [done| |].
  - apply not_elem_of_nil.
  - intros k _. apply not_elem_of_nil.
Qed.

Lemma X15_details_override_violation_type_witness :
  let d := [("source", py_repr "scanner"); ("violation_type", py_repr "none")] in
  NoDup d.*1
  ∧ log_security_violation noon "eve" "10.0.0.9" "port_scan" (Some d)
    = Some ("2026-01-01 12:00:00 - ERROR - security_violation - eve - 10.0.0.9"
            +:+ " - security - violation - {'violation_type': 'none', 'source': 'scanner'}").
Proof.
  intros d.
  assert (NoDup d.*1) as Hnd.
  { apply NoDup_cons. split; [|apply NoDup_singleton].
    intros Hin. by apply list_elem_of_singleton in Hin. }
  split; [exact Hnd|]. subst d.
  rewrite (X15_details_override_violation_type _ _ _ _ _ Hnd). reflexivity.
Defined.

(** * Properties of the audit logger as an object *)



(** X17.  A construction that fails leaves no instance behind, and how
    far it got decides the rest: when [os.makedirs] raises, nothing has
    changed; when the log file cannot be opened, the logger's handlers
    have already been cleared, so that events logged through the
    instances made earlier are written to no file at all.  In both cases
    the global [_audit_logger] is as it was. *)
Theorem X17_failed_construction (file : string) (mb bc : Z) (e : exn) (w : LogWorld)
    (old : AuditLogger) (t : datetime) (event_type : AuditEventType)
    (user ip resource action : string) (details : option Details) (level : Z) :
  (∀ open_file, init_audit_logging file mb bc (Raise e) open_file w = (Raise e, w))
  ∧ ∃ w1,
      init_audit_logging file mb bc (Ok tt) (Raise e) w = (Raise e, w1)
      ∧ audit_handlers w1 = []
      ∧ _audit_logger w1 = _audit_logger w
      ∧ written w1 = written w
      ∧ AuditLogger_log_event old t event_type user ip resource action details level w1
        = (Ok tt, w1).
Proof.
  split; [done|]. eexists. split; [reflexivity|].
  split; [done|]. split; [done|]. split; [done|].
  unfold AuditLogger_log_event. destruct (log_event _ _ _ _ _ _ _ _); [|done].
  unfold modify. simpl. by destruct w.
Qed.

(** X18.  [get_audit_logger] constructs the default logger, for
    [logs/audit.log] with 10 MiB and 5 backups, only when the global is
    unset; once set, it returns the same instance and touches neither the
    handlers nor the files, so that an [init_audit_logging] made before
    is not undone; and a first construction that fails leaves the global
    unset, so that the next call tries again. *)
Theorem X18_get_audit_logger (w : LogWorld) (e : exn) :
  match _audit_logger w with
  | Some a => ∀ makedirs open_file, get_audit_logger makedirs open_file w = (Ok a, w)
  | None =>
      let a := {| log_file := "logs/audit.log"; max_bytes := 10485760;
                  backup_count := 5 |} in
      (∃ w1,
         get_audit_logger (Ok tt) (Ok tt) w = (Ok a, w1)
         ∧ _audit_logger w1 = Some a
         ∧ audit_handlers w1
           = [{| h_file := "logs/audit.log"; h_max_bytes := 10485760;
                 h_backup_count := 5 |}]
         ∧ ∀ makedirs open_file, get_audit_logger makedirs open_file w1 = (Ok a, w1))
      ∧ (∃ w1, get_audit_logger (Ok tt) (Raise e) w = (Raise e, w1)
               ∧ _audit_logger w1 = None ∧ audit_handlers w1 = [])
      ∧ get_audit_logger (Raise e) (Ok tt) w = (Raise e, w)
  end.
Proof.
  destruct (_audit_logger w) as [a|] eqn:Hg.
  - intros makedirs open_file. unfold get_audit_logger, gets, bind. by rewrite Hg.
  - intros a. split; [|split].
    + eexists. split; [unfold get_audit_logger, gets, bind at 1; rewrite Hg; reflexivity|].
      split; [done|]. split; [done|]. intros makedirs open_file. reflexivity.
    + eexists. split; [unfold get_audit_logger, gets, bind at 1; rewrite Hg; reflexivity|].
      split; [exact Hg|done].
    + unfold get_audit_logger, gets, bind at 1. by rewrite Hg.
Qed.

(** ** The convenience methods *)

Lemma single_line_literal s :
  string_mem newline s = false → string_mem carriage_return s = false → single_line s.
Proof. by split. Qed.

Lemma wrapper_one_line t event_type user ip resource action details level :
  INFO ≤ level →
  single_line user → single_line ip → single_line resource → single_line action →
  ∃ line, log_event t event_type user ip resource action details level = Some line
          ∧ single_line line.
Proof.
  intros Hlevel Hu Hi Hr Ha.
  rewrite (log_event_fields _ _ _ _ _ _ _ _ Hlevel).
  eexists. split; [reflexivity|].
  eapply log_event_one_line; [exact Hu|exact Hi|exact Hr|exact Ha|].
  by rewrite (log_event_fields _ _ _ _ _ _ _ _ Hlevel).
Qed.

(** X19.  None of the nine convenience methods is filtered out by the
    logger's level, and each writes a record of one line as soon as
    [user] and [ip] have no line break, together with the argument that
    it passes on as [resource] or [action]: the resource of
    [log_access_denied], the endpoint and method of [log_api_access] and
    the action of [log_admin_action].  The arguments that go into the
    details (method, reason, permission, configuration key and values,
    phases, fault type, violation type, caller's details) never break
    the line. *)
Theorem X19_convenience_methods (t : datetime) (user ip a b c : string)
    (force : bool) (n : Z) (details : option Details) :
  single_line user → single_line ip →
  (∃ line, log_auth_success t user ip a = Some line ∧ single_line line)
  ∧ (∃ line, log_auth_failure t user ip a = Some line ∧ single_line line)
  ∧ (single_line a →
     ∃ line, log_access_denied t user ip a b = Some line ∧ single_line line)
  ∧ (∃ line, log_config_change t user ip a b c = Some line ∧ single_line line)
  ∧ (∃ line, log_phase_change t user ip a b force = Some line ∧ single_line line)
  ∧ (∃ line, log_chaos_injection t user ip a n = Some line ∧ single_line line)
  ∧ (single_line a → single_line b →
     ∃ line, log_api_access t user ip a b n = Some line ∧ single_line line)
  ∧ (single_line a →
     ∃ line, log_admin_action t user ip a details = Some line ∧ single_line line)
  ∧ (∃ line, log_security_violation t user ip a details = Some line ∧ single_line line).
Proof.
  intros Hu Hi.
  repeat split; intros;
    apply wrapper_one_line; try done; by apply single_line_literal.
Qed.

Lemma X19_convenience_methods_witness :
  single_line "alice" ∧ single_line "10.0.0.1"
  ∧ ∃ line,
      log_auth_failure noon "alice" "10.0.0.1" (String "x" (String newline "y")) = Some line
      ∧ single_line line.
Proof.
  assert (single_line "alice") as Hu by (by split).
  assert (single_line "10.0.0.1") as Hi by (by split).
  split; [exact Hu|]. split; [exact Hi|].
  destruct (X19_convenience_methods noon "alice" "10.0.0.1"
              (String "x" (String newline "y")) "" "" false 0 None Hu Hi)
    as (_ & Hfail & _).
  exact Hfail.
Defined.
